(** * dl09wk: a CORS proxy for GitHub downloads (src/index.js)

    The worker answers every inbound request by [handleRequest]: two prefix
    gates on the URL's pathname, four regular expressions that classify the
    remainder, a template that builds the upstream URL, and one or two
    outbound [fetch] calls whose response is relayed with a CORS header.

    This file embeds that program: JavaScript strings as [string], the four
    regular expressions as syntax trees run by a backtracking matcher with
    JavaScript's greedy priority, the asynchronous handlers in a small state
    and exception monad over an explicit network, and the platform's
    [Headers] and [Response] objects as far as the handlers use them. *)

From Stdlib Require Import String Ascii List ZArith Bool Arith Lia.
Import ListNotations.

Open Scope list_scope.
Open Scope string_scope.

(** ** JavaScript strings *)

Module JsString.

(** [s.startsWith(p)] *)
Definition startsWith (s p : string) : bool := String.prefix p s.

(** [s.slice(n)] for [0 <= n]. *)
Fixpoint slice (n : nat) (s : string) : string :=
  match n, s with
  | O, _ => s
  | S _, EmptyString => EmptyString
  | S n', String _ s' => slice n' s'
  end.

(** [s.replace(pat, rep)] with a string pattern: only the first occurrence
    of [pat] is replaced.  [rep] is taken literally, which is what
    JavaScript does for a replacement without [$] (the source passes ['']). *)
Definition replace (s pat rep : string) : string :=
  match String.index 0 pat s with
  | Some i => String.substring 0 i s ++ rep ++ slice (i + String.length pat) s
  | None => s
  end.

(** [s.includes(t)] *)
Definition includes (s t : string) : bool :=
  match String.index 0 t s with
  | Some _ => true
  | None => false
  end.

(** Every character of [s] satisfies [p]. *)
Fixpoint all (p : ascii -> bool) (s : string) : bool :=
  match s with
  | EmptyString => true
  | String c s' => p c && all p s'
  end.

(** ASCII lower-casing, as used to compare header names. *)
Definition lower_char (c : ascii) : ascii :=
  let n := nat_of_ascii c in
  if ((65 <=? n) && (n <=? 90))%nat then ascii_of_nat (n + 32) else c.

Fixpoint toLowerCase (s : string) : string :=
  match s with
  | EmptyString => EmptyString
  | String c s' => String (lower_char c) (toLowerCase s')
  end.

End JsString.

(** ** Regular expressions

    The fragment of JavaScript's regular expressions that the source uses:
    the assertions [^] and [$] (no [m] flag: start and end of input), a
    literal character, and a character class under a greedy quantifier
    ([+] or [*]), inside a capture group or not. *)

Module Regex.

Inductive Node : Type :=
| Bol                                                  (* ^ *)
| Eol                                                  (* $ *)
| Lit (c : ascii)                                      (* a character, \/ included *)
| Repeat (capture : bool) (cls : ascii -> bool) (min : nat).
                                                       (* cls+ (min 1), cls* (min 0) *)

(** [[^\/]] *)
Definition not_slash (c : ascii) : bool := negb (Ascii.eqb c "/").

(** [.] without the [s] flag: any character but a line terminator.  Of the
    four line terminators (LF, CR, U+2028, U+2029) the first two are
    8-bit characters. *)
Definition dot (c : ascii) : bool :=
  negb (Ascii.eqb c "010") && negb (Ascii.eqb c "013").

(** [[a-zA-Z0-9_.-]] *)
Definition word_dot_dash (c : ascii) : bool :=
  let n := nat_of_ascii c in
  ((97 <=? n) && (n <=? 122))%nat || ((65 <=? n) && (n <=? 90))%nat
  || ((48 <=? n) && (n <=? 57))%nat
  || Ascii.eqb c "_" || Ascii.eqb c "." || Ascii.eqb c "-".

(** The literal characters of [s], one node each. *)
Fixpoint lits (s : string) : list Node :=
  match s with
  | EmptyString => []
  | String c s' => Lit c :: lits s'
  end.

(** What the rest of a pattern returns: the position where the match ends
    and the texts of its capture groups, left to right. *)
Definition Tail : Type := (nat * list string)%type.

(** A greedy quantifier over a class: take one more character first, and
    only when the rest of the pattern fails after that, stop here (if [min]
    characters have been taken).  Returns the text taken with what the
    continuation [k] returned. *)
Fixpoint greedy (cls : ascii -> bool) (min : nat)
    (k : nat -> string -> option Tail) (pos : nat) (s : string)
    : option (string * Tail) :=
  let stop :=
    match min with
    | O => option_map (pair EmptyString) (k pos s)
    | S _ => None
    end in
  match s with
  | String c s' =>
      if cls c then
        match greedy cls (pred min) k (S pos) s' with
        | Some (taken, r) => Some (String c taken, r)
        | None => stop
        end
      else stop
  | EmptyString => stop
  end.

(** Match [nodes] against [s], the input from position [pos] on. *)
Fixpoint run (nodes : list Node) (pos : nat) (s : string) : option Tail :=
  match nodes with
  | [] => Some (pos, [])
  | Bol :: ns => if (pos =? 0)%nat then run ns pos s else None
  | Eol :: ns =>
      match s with
      | EmptyString => run ns pos s
      | String _ _ => None
      end
  | Lit c :: ns =>
      match s with
      | String c' s' => if Ascii.eqb c c' then run ns (S pos) s' else None
      | EmptyString => None
      end
  | Repeat capture cls min :: ns =>
      match greedy cls min (run ns) pos s with
      | Some (taken, (e, caps)) =>
          Some (e, if capture then taken :: caps else caps)
      | None => None
      end
  end.

(** The leftmost match: try every start position in turn. *)
Fixpoint scan (nodes : list Node) (pos : nat) (s : string)
    : option (nat * Tail) :=
  match run nodes pos s with
  | Some r => Some (pos, r)
  | None =>
      match s with
      | String _ s' => scan nodes (S pos) s'
      | EmptyString => None
      end
  end.

(** [input.match(re)] for a regular expression without the [g] flag: [null]
    ([None]) or the array of the matched text followed by the groups. *)
Definition exec (nodes : list Node) (input : string) : option (list string) :=
  match scan nodes 0 input with
  | Some (b, (e, caps)) => Some (String.substring b (e - b) input :: caps)
  | None => None
  end.

(** [re.test(input)] *)
Definition test (nodes : list Node) (input : string) : bool :=
  match scan nodes 0 input with
  | Some _ => true
  | None => false
  end.

(** [([^\/]+)] *)
Definition segment_group : Node := Repeat true not_slash 1.

(** The last group and the end assertion: a group of [.*], then [$]. *)
Definition rest_group : list Node := [Repeat true dot 0; Eol].

End Regex.

Import Regex.

(** ** Configuration (src/index.js, lines 6-7) *)

Definition PREFIX_ACCESS : string := "/3lwqk".
Definition PREFIX_GH : string := "/gh/".

(** ** The regular expressions of [handleGitHubRequest]

    Each comment quotes the source's literal; its last group is written
    with blanks around [.*] here, which the source does not have. *)

(** [/^\/gh\/([^\/]+)\/([^\/]+)\/releases\/download\/([^\/]+)\/( .* )$/] *)
Definition release_re : list Node :=
  (Bol :: lits "/gh/" ++ segment_group :: lits "/" ++ segment_group
     :: lits "/releases/download/" ++ segment_group :: lits "/" ++ rest_group)%list.

(** [/^\/gh\/([^\/]+)\/([^\/]+)@([^\/]+)\/( .* )$/] *)
Definition version_re : list Node :=
  (Bol :: lits "/gh/" ++ segment_group :: lits "/" ++ segment_group
     :: lits "@" ++ segment_group :: lits "/" ++ rest_group)%list.

(** [/^\/gh\/([^\/]+)\/([^\/]+)\/blob\/([^\/]+)\/( .* )$/] *)
Definition blob_re : list Node :=
  (Bol :: lits "/gh/" ++ segment_group :: lits "/" ++ segment_group
     :: lits "/blob/" ++ segment_group :: lits "/" ++ rest_group)%list.

(** [/^\/gh\/([^\/]+)\/([^\/]+)\/raw\/([^\/]+)\/( .* )$/] *)
Definition raw_re : list Node :=
  (Bol :: lits "/gh/" ++ segment_group :: lits "/" ++ segment_group
     :: lits "/raw/" ++ segment_group :: lits "/" ++ rest_group)%list.

(** [/^[a-zA-Z0-9_.-]+$/] *)
Definition parameter_re : list Node :=
  [Bol; Repeat false word_dot_dash 1; Eol].

(** ** The usage guide (src/index.js, lines 141-199)

    The template literal of [generateUsageGuide], line by line: it starts
    with the line break after the opening backtick and ends with the four
    blanks before the closing one. *)

Definition dq : string := String (ascii_of_nat 34) EmptyString.
Definition newline : string := String (ascii_of_nat 10) EmptyString.

Definition generateUsageGuide : string :=
  String.concat newline
    [EmptyString;
     "        <!DOCTYPE html>";
     "        <html lang=" ++ dq ++ "en" ++ dq ++ ">";
     "        <head>";
     "            <meta charset=" ++ dq ++ "UTF-8" ++ dq ++ ">";
     "            <meta name=" ++ dq ++ "viewport" ++ dq ++ " content=" ++ dq ++ "width=device-width, initial-scale=1.0" ++ dq ++ ">";
     "            <title>Usage Guide</title>";
     "            <style>";
     "                body {";
     "                    font-family: Arial, sans-serif;";
     "                    margin: 20px;";
     "                    padding: 20px;";
     "                    background-color: #f4f4f4;";
     "                    color: #333;";
     "                }";
     "                h1 {";
     "                    color: #007bff;";
     "                }";
     "                pre {";
     "                    background-color: #eee;";
     "                    padding: 10px;";
     "                    border-radius: 5px;";
     "                }";
     "                code {";
     "                    font-family: monospace;";
     "                    background-color: #f9f9f9;";
     "                    padding: 2px 4px;";
     "                    border-radius: 4px;";
     "                }";
     "            </style>";
     "        </head>";
     "        <body>";
     "            <h1>Usage Guide</h1>";
     "            <p>Use the following endpoints to access GitHub releases:</p>";
     "            <h2>GitHub Releases</h2>";
     "            <pre>";
     "<code>https://dl09.net/3lwqk/gh/user/repo@version/file</code>";
     "            </pre>";
     "            <p>Examples:</p>";
     "            <pre>";
     "<code>https://dl09.net/3lwqk/gh/containerd/containerd@v1.6.4/cri-containerd-cni-1.6.4-linux-amd64.tar.gz</code>";
     "            </pre>";
     "            <pre>";
     "<code>https://dl09.net/3lwqk/gh/jquery/jquery@3.6.4/dist/jquery.min.js</code>";
     "            </pre>";
     "            <pre>";
     "<code>https://dl09.net/3lwqk/gh/nginx/nginx@1.2.6/CHANGELOG</code>";
     "            </pre>";
     "            <h2>Notes</h2>";
     "            <ul>";
     "                <li>Make sure to use valid user, repo, and version names.</li>";
     "                <li>Only alphanumeric characters, dashes, and underscores are allowed.</li>";
     "                <li>For the latest version of a repository, omit the version part.</li>";
     "            </ul>";
     "        </body>";
     "        </html>";
     "    "].

(** ** The platform: headers, responses, requests *)

Module Headers.

(** A header list.  Names are compared without regard to ASCII case, as
    [get], [has] and [set] of the platform's [Headers] do. *)
Definition t : Type := list (string * string).

Definition same_name (a b : string) : bool :=
  String.eqb (JsString.toLowerCase a) (JsString.toLowerCase b).

(** The values of every header called [name], in order. *)
Definition values (name : string) (h : t) : list string :=
  map snd (filter (fun nv => same_name (fst nv) name) h).

(** [h.get(name)]: [null] when there is none, else the values joined. *)
Definition get (name : string) (h : t) : option string :=
  match values name h with
  | [] => None
  | vs => Some (String.concat ", " vs)
  end.

Definition remove (name : string) (h : t) : t :=
  filter (fun nv => negb (same_name (fst nv) name)) h.

(** [h.set(name, value)]: the first header of that name takes the value
    and the others are removed; without one, the header is appended. *)
Fixpoint set (name value : string) (h : t) : t :=
  match h with
  | [] => [(name, value)]
  | (n, v) :: h' =>
      if same_name n name then (n, value) :: remove name h'
      else (n, v) :: set name value h'
  end.

(** [new Headers(h)]: a new object with the headers of [h].  A platform
    may keep them in another order or with lower-cased names; [get] reads
    the same from either, and the handlers' responses are read by [get]. *)
Definition copy (h : t) : t := h.

End Headers.

(** A body is the text a response was constructed with, or the stream a
    fetch delivered (its bytes). *)
Inductive Body : Type :=
| Text (s : string)
| Stream (bytes : string).

Record Response : Type := mkResponse {
  status : Z;
  headers : Headers.t;
  body : option Body
}.

(** [response.ok] *)
Definition ok (r : Response) : bool :=
  ((200 <=? status r) && (status r <=? 299))%Z.

(** The inbound request.  [url] is [new URL(request.url)], of which the
    handlers read the pathname only. *)
Record Url : Type := mkUrl {
  origin : string;
  pathname : string;
  search : string;
  hash : string
}.

Record Request : Type := mkRequest {
  method : string;
  url : Url;
  req_headers : Headers.t;
  req_body : option Body
}.

(** What leaves the worker with a [fetch]. *)
Record Outbound : Type := mkOutbound {
  out_url : string;
  out_method : string;
  out_headers : Headers.t;
  out_body : option Body
}.

(** ** Exceptions and effects *)

Inductive Exn : Type :=
| NetworkFailure      (* the TypeError a fetch rejects with *)
| RangeError
| TypeError.

Inductive Completion (A : Type) : Type :=
| Normal (a : A)
| Throw (e : Exn).

Arguments Normal {A} a.
Arguments Throw {A} e.

Inductive LogArg : Type :=
| LogStr (s : string)
| LogNum (n : Z).

(** What a handler leaves behind: the fetches it sent, in order, and the
    lines it logged. *)
Record World : Type := mkWorld {
  sent : list Outbound;
  console : list (list LogArg)
}.

Definition M (A : Type) : Type := World -> Completion A * World.

Definition ret {A} (a : A) : M A := fun w => (Normal a, w).

Definition throw {A} (e : Exn) : M A := fun w => (Throw e, w).

Definition bind {A B} (m : M A) (f : A -> M B) : M B :=
  fun w =>
    match m w with
    | (Normal a, w') => f a w'
    | (Throw e, w') => (Throw e, w')
    end.

(** [try { m } catch (error) { handler }] *)
Definition try_catch {A} (m : M A) (handler : Exn -> M A) : M A :=
  fun w =>
    match m w with
    | (Normal a, w') => (Normal a, w')
    | (Throw e, w') => handler e w'
    end.

Definition complete {A} (c : Completion A) : M A := fun w => (c, w).

Definition console_log (args : list LogArg) : M unit :=
  fun w => (Normal tt, mkWorld (sent w) (console w ++ [args])%list).

Notation "x <- m ;; f" := (bind m (fun x => f))
  (at level 61, m at next level, right associativity).

(** The statuses that admit no body: 101, 103, 204, 205, 304. *)
Definition null_body_status (s : Z) : bool :=
  ((s =? 101) || (s =? 103) || (s =? 204) || (s =? 205) || (s =? 304))%Z.

(** [new Response(body, { status, headers })]: a RangeError for a status
    outside 200..599, a TypeError for a body with a status that admits
    none; a text body brings its content type when [headers] has none. *)
Definition new_Response (b : option Body) (st : Z) (h : Headers.t)
    : Completion Response :=
  if ((st <? 200) || (599 <? st))%Z then Throw RangeError
  else
    match b with
    | None => Normal (mkResponse st h None)
    | Some bd =>
        if null_body_status st then Throw TypeError
        else
          match bd, Headers.get "Content-Type" h with
          | Text _, None =>
              Normal (mkResponse st
                        (h ++ [("content-type", "text/plain;charset=UTF-8")])%list
                        b)
          | _, _ => Normal (mkResponse st h b)
          end
    end.

(** The network: what a fetch meets, given the fetches sent before it.  A
    reply is the final one, after the redirects the platform follows. *)
Inductive Reply : Type :=
| Fails
| Replies (st : Z) (h : Headers.t) (payload : string).

Definition Network : Type := list Outbound -> Outbound -> Reply.

(** A template literal's [${v}]: the string, or [undefined] spelled out. *)
Definition interpolate (v : option string) : string :=
  match v with
  | Some s => s
  | None => "undefined"
  end.

(** A value in a condition: [null] is falsy, a match array is truthy. *)
Definition truthy {A} (v : option A) : bool :=
  match v with
  | Some _ => true
  | None => false
  end.

(** ** The worker (src/index.js) *)

Section Worker.

Variable network : Network.

(** [fetch(url)]: a GET without headers or body.  The response of a
    status that admits no body has none. *)
Definition fetch (u : string) : M Response :=
  fun w =>
    let rq := mkOutbound u "GET" [] None in
    let w' := mkWorld (sent w ++ [rq])%list (console w) in
    match network (sent w) rq with
    | Fails => (Throw NetworkFailure, w')
    | Replies st h payload =>
        (Normal (mkResponse st h
                   (if null_body_status st then None
                    else Some (Stream payload))), w')
    end.

(** src/index.js, lines 124-135 *)
Definition fetchWithCors (u : string) (request : Request) : M Response :=
  res <- fetch u ;;
  let resHdrNew := Headers.copy (headers res) in
  let resHdrNew := Headers.set "access-control-allow-origin" "*" resHdrNew in
  complete (new_Response (body res) (status res) resHdrNew).

(** src/index.js, lines 92-106: the statements after the chain of
    conditions of [handleGitHubRequest], which the release branch alone
    reaches; the four variables are those it has assigned. *)
Definition probe_then_relay (user repo version filePath : option string)
    (request : Request) : M Response :=
  let githubUrl :=
    "https://github.com/" ++ interpolate user ++ "/" ++ interpolate repo
    ++ "/releases/download/" ++ interpolate version ++ "/"
    ++ interpolate filePath in
  try_catch
    (response <- fetch githubUrl ;;
     if negb (ok response) then
       _ <- console_log [LogStr "GitHub response not OK:";
                         LogNum (status response)] ;;
       complete (new_Response (Some (Text "File not found")) 404 [])
     else
       fetchWithCors githubUrl request)
    (fun error =>
       complete (new_Response (Some (Text "Internal Server Error")) 500 [])).

(** src/index.js, lines 53-90, and [probe_then_relay] for the rest. *)
Definition handleGitHubRequest (path : string) (request : Request)
    : M Response :=
  let releaseMatch := exec release_re path in
  let versionMatch := exec version_re path in
  let blobMatch := exec blob_re path in
  let rawMatch := exec raw_re path in
  if negb (truthy releaseMatch) && negb (truthy versionMatch)
     && negb (truthy blobMatch) && negb (truthy rawMatch)
  then
    complete (new_Response (Some (Text generateUsageGuide)) 400
                [("Content-Type", "text/html")])
  else
    match releaseMatch with
    | Some m =>
        let user := nth_error m 1 in
        let repo := nth_error m 2 in
        let version := nth_error m 3 in
        let filePath := nth_error m 4 in
        probe_then_relay user repo version filePath request
    | None =>
    match versionMatch with
    | Some m =>
        let user := nth_error m 1 in
        let repo := nth_error m 2 in
        let version := nth_error m 3 in
        let filePath := nth_error m 4 in
        let githubUrl :=
          "https://github.com/" ++ interpolate user ++ "/" ++ interpolate repo
          ++ "/raw/refs/tags/" ++ interpolate version ++ "/"
          ++ interpolate filePath in
        fetchWithCors githubUrl request
    | None =>
    match blobMatch with
    | Some m =>
        let user := nth_error m 1 in
        let repo := nth_error m 2 in
        let version := nth_error m 3 in
        let filePath := nth_error m 4 in
        let githubUrl :=
          "https://raw.githubusercontent.com/" ++ interpolate user ++ "/"
          ++ interpolate repo ++ "/" ++ interpolate version ++ "/"
          ++ interpolate filePath in
        fetchWithCors githubUrl request
    | None =>
    match rawMatch with
    | Some m =>
        let user := nth_error m 1 in
        let repo := nth_error m 2 in
        let version := nth_error m 3 in
        let filePath := nth_error m 4 in
        let githubUrl :=
          "https://raw.githubusercontent.com/" ++ interpolate user ++ "/"
          ++ interpolate repo ++ "/" ++ interpolate version ++ "/"
          ++ interpolate filePath in
        fetchWithCors githubUrl request
    | None => probe_then_relay None None None None request
    end end end end.

(** src/index.js, lines 27-45 *)
Definition handleRequest (request : Request) : M Response :=
  let path := pathname (url request) in
  if negb (JsString.startsWith path PREFIX_ACCESS) then
    complete (new_Response (Some (Text "404 Not Found")) 404 [])
  else
    let path := JsString.replace path PREFIX_ACCESS "" in
    if JsString.startsWith path PREFIX_GH then
      handleGitHubRequest path request
    else
      complete (new_Response (Some (Text "404 Not Found")) 404 []).

End Worker.

(** src/index.js, lines 114-116.  Nothing above calls it. *)
Definition isValidGitHubParameter (param : string) : bool :=
  negb (String.eqb param "") && test parameter_re param.

(** ** Values the statements below name *)

(** What [new Response(text, { status })] constructs for a status that
    admits a body: the text with its content type. *)
Definition text_response (st : Z) (text : string) : Response :=
  mkResponse st [("content-type", "text/plain;charset=UTF-8")]
    (Some (Text text)).

(** The fetch that [fetch(u)] sends. *)
Definition get_request (u : string) : Outbound := mkOutbound u "GET" [] None.

(** The world after one more fetch. *)
Definition after_fetch (w : World) (u : string) : World :=
  mkWorld (sent w ++ [get_request u])%list (console w).

(** The response that relays a reply: its status and payload, its headers
    with the CORS header set. *)
Definition relayed (st : Z) (h : Headers.t) (payload : string) : Response :=
  mkResponse st (Headers.set "access-control-allow-origin" "*" h)
    (if null_body_status st then None else Some (Stream payload)).

(** A request for a pathname, and networks to try the handlers on. *)
Definition request_for (p : string) : Request :=
  mkRequest "GET" (mkUrl "https://dl09.net" p "" "") [] None.

Definition network_down : Network := fun _ _ => Fails.

Definition network_up : Network :=
  fun _ _ =>
    Replies 200 [("Content-Type", "application/octet-stream");
                 ("Access-Control-Allow-Origin", "https://github.com")]
            "payload".

Definition network_missing : Network := fun _ _ => Replies 404 [] "".

Definition world0 : World := mkWorld [] [].

(** The fetches of [new] are GETs without headers or body. *)
Definition plain_gets (new : list Outbound) : Prop :=
  Forall (fun o => o = get_request (out_url o)) new.

(** ** Path shapes

    The four shapes of the interface, as the paths they describe.  A
    segment is a non-empty run of characters other than [/]; a file path is
    any text without a line terminator (a URL's pathname holds none). *)

Definition is_segment (s : string) : bool :=
  negb (String.eqb s "") && JsString.all not_slash s.

Definition single_line (s : string) : bool := JsString.all dot s.

Definition release_path (owner repo tag file : string) : string :=
  "/gh/" ++ owner ++ "/" ++ repo ++ "/releases/download/" ++ tag ++ "/" ++ file.

Definition version_path (owner repo tag file : string) : string :=
  "/gh/" ++ owner ++ "/" ++ repo ++ "@" ++ tag ++ "/" ++ file.

Definition blob_path (owner repo ref file : string) : string :=
  "/gh/" ++ owner ++ "/" ++ repo ++ "/blob/" ++ ref ++ "/" ++ file.

Definition raw_path (owner repo ref file : string) : string :=
  "/gh/" ++ owner ++ "/" ++ repo ++ "/raw/" ++ ref ++ "/" ++ file.

(** [@] occurs in [s] before its last character. *)
Fixpoint at_before_last (s : string) : bool :=
  match s with
  | EmptyString => false
  | String c s' =>
      (Ascii.eqb c "@" && negb (String.eqb s' "")) || at_before_last s'
  end.

(** [@] occurs in [s] between its first and its last character. *)
Definition inner_at (s : string) : bool :=
  match s with
  | EmptyString => false
  | String _ s' => at_before_last s'
  end.

(** [s] holds no [@]. *)
Definition no_at (s : string) : bool :=
  JsString.all (fun c => negb (Ascii.eqb c "@")) s.

(** A quantifier over [cls] cannot go past the start of [s]. *)
Definition stops_at (cls : ascii -> bool) (s : string) : Prop :=
  match s with
  | EmptyString => True
  | String c _ => cls c = false
  end.

(** The release, blob and raw expressions differ in the literal [l] after
    the repository only; [slash_body l] is such an expression between its
    [^] and the end, and [slash_path l] the paths of its shape. *)
Definition slash_body (l : string) : list Node :=
  (lits "/gh/" ++ segment_group :: Lit "/" :: segment_group :: Lit "/"
     :: lits l ++ segment_group :: Lit "/" :: rest_group)%list.

Definition slash_path (l owner repo ref file : string) : string :=
  "/gh/" ++ owner ++ "/" ++ repo ++ "/" ++ l ++ ref ++ "/" ++ file.

(** The short-version expression between its [^] and the end. *)
Definition version_body : list Node :=
  (lits "/gh/" ++ segment_group :: Lit "/" :: segment_group :: Lit "@"
     :: segment_group :: Lit "/" :: rest_group)%list.

(** The number of slashes of a path. *)
Fixpoint count_slash (s : string) : nat :=
  match s with
  | EmptyString => 0
  | String c s' => (if Ascii.eqb c "/" then 1 else 0) + count_slash s'
  end.

(** A URL on one of the two origins the templates name. *)
Definition github_url (u : string) : bool :=
  String.prefix "https://github.com/" u
  || String.prefix "https://raw.githubusercontent.com/" u.

(** The response of [handleGitHubRequest] to a path of no shape. *)
Definition usage_response : Response :=
  mkResponse 400 [("Content-Type", "text/html")]
    (Some (Text generateUsageGuide)).

(** * Facts about strings *)

Section StringFacts.

Lemma append_nil_r (s : string) : s ++ "" = s.
Proof. induction s as [|c s IH]; simpl; congruence. Qed.

Lemma append_assoc (a b c : string) : (a ++ b) ++ c = a ++ b ++ c.
Proof. induction a as [|x a IH]; simpl; congruence. Qed.

Lemma length_append (a b : string) :
  String.length (a ++ b) = String.length a + String.length b.
Proof. induction a as [|x a IH]; simpl; congruence. Qed.

Lemma all_append (p : ascii -> bool) (a b : string) :
  JsString.all p (a ++ b) = JsString.all p a && JsString.all p b.
Proof.
  induction a as [|x a IH]; simpl; [reflexivity|].
  rewrite IH. apply andb_assoc.
Qed.

Lemma prefix_append (p s : string) : String.prefix p (p ++ s) = true.
Proof.
  induction p as [|c p IH]; simpl.
  - destruct s; reflexivity.
  - destruct (ascii_dec c c) as [_|n]; [exact IH | contradiction].
Qed.

Lemma prefix_split (p s : string) :
  String.prefix p s = true -> s = p ++ JsString.slice (String.length p) s.
Proof.
  revert s. induction p as [|c p IH]; intros s H; simpl.
  - reflexivity.
  - destruct s as [|d s]; simpl in H; [discriminate|].
    destruct (ascii_dec c d) as [e|n]; [|discriminate].
    subst d. f_equal. apply IH, H.
Qed.

Lemma slice_append (p s : string) : JsString.slice (String.length p) (p ++ s) = s.
Proof. induction p as [|c p IH]; simpl; [reflexivity | exact IH]. Qed.

Lemma substring_all (s : string) : String.substring 0 (String.length s) s = s.
Proof. induction s as [|c s IH]; simpl; congruence. Qed.

Lemma substring_zero (s : string) : String.substring 0 0 s = "".
Proof. destruct s; reflexivity. Qed.

Lemma index_prefix (p s : string) :
  String.prefix p s = true -> String.index 0 p s = Some 0.
Proof.
  intros H. destruct s as [|c s].
  - destruct p; [reflexivity | discriminate].
  - cbn [String.index]. rewrite H. reflexivity.
Qed.

(** Replacing a prefix by the empty string strips it. *)
Lemma replace_prefix (p s : string) :
  String.prefix p s = true ->
  JsString.replace s p "" = JsString.slice (String.length p) s.
Proof.
  intros H. unfold JsString.replace. rewrite (index_prefix _ _ H).
  rewrite substring_zero. reflexivity.
Qed.

Lemma prefix_of_append (p q s : string) :
  String.prefix (p ++ q) s
  = String.prefix p s && String.prefix q (JsString.slice (String.length p) s).
Proof.
  revert s. induction p as [|c p IH]; intros s; simpl.
  - destruct s; reflexivity.
  - destruct s as [|d s]; [reflexivity|].
    simpl. destruct (ascii_dec c d); [apply IH | reflexivity].
Qed.

Lemma is_segment_spec (s : string) :
  is_segment s = true <-> s <> "" /\ JsString.all not_slash s = true.
Proof.
  unfold is_segment. rewrite andb_true_iff, negb_true_iff, String.eqb_neq.
  tauto.
Qed.

(** A text that starts with a segment and a slash does so in one way. *)
Lemma segment_split_unique (a b x y : string) :
  JsString.all not_slash a = true -> JsString.all not_slash b = true ->
  a ++ "/" ++ x = b ++ "/" ++ y -> a = b /\ x = y.
Proof.
  revert b. induction a as [|c a IH]; intros [|d b] Ha Hb E; simpl in *.
  - inversion E. auto.
  - inversion E; subst. discriminate.
  - inversion E; subst. discriminate.
  - apply andb_true_iff in Ha as [_ Ha]. apply andb_true_iff in Hb as [_ Hb].
    inversion E; subst. destruct (IH b Ha Hb H1) as [-> ->]. auto.
Qed.

End StringFacts.

(** * Facts about the matcher *)

Section GreedyFacts.

Variable cls : ascii -> bool.
Variable k : nat -> string -> option Tail.

(** What a successful greedy match took, and where the rest went on. *)
Lemma greedy_sound (s : string) :
  forall min pos taken r,
    greedy cls min k pos s = Some (taken, r) ->
    exists rest,
      s = taken ++ rest /\ JsString.all cls taken = true
      /\ min <= String.length taken
      /\ k (pos + String.length taken) rest = Some r.
Proof.
  induction s as [|c s IH]; intros min pos taken r H; simpl in H.
  - destruct min; [|discriminate].
    destruct (k pos "") as [r'|] eqn:K; simpl in H; [|discriminate].
    inversion H; subst. exists "". simpl. rewrite Nat.add_0_r. auto.
  - assert (Stop :
      match min with
      | O => option_map (pair "") (k pos (String c s))
      | S _ => None
      end = Some (taken, r) ->
      exists rest,
        String c s = taken ++ rest /\ JsString.all cls taken = true
        /\ min <= String.length taken
        /\ k (pos + String.length taken) rest = Some r).
    { intros H'. destruct min; [|discriminate].
      destruct (k pos (String c s)) as [r'|] eqn:K; simpl in H'; [|discriminate].
      inversion H'; subst. exists (String c s). simpl.
      rewrite Nat.add_0_r. auto. }
    destruct (cls c) eqn:Hc; [|exact (Stop H)].
    destruct (greedy cls (pred min) k (S pos) s) as [[t r']|] eqn:G;
      [|exact (Stop H)].
    inversion H; subst. destruct (IH _ _ _ _ G) as (rest & -> & Ha & Hm & Hk).
    exists rest. simpl. rewrite Hc, Ha.
    replace (pos + S (String.length t)) with (S pos + String.length t) by lia.
    repeat split; [lia | exact Hk].
Qed.

(** When the rest of the pattern fails after every split of the run [w]
    that leaves [min] characters or more, the quantifier fails. *)
Lemma greedy_none (w s : string) :
  JsString.all cls w = true -> stops_at cls s ->
  forall min pos,
    (forall a b, w = a ++ b -> min <= String.length a ->
       k (pos + String.length a) (b ++ s) = None) ->
    greedy cls min k pos (w ++ s) = None.
Proof.
  intros Hw Hs. induction w as [|c w IH]; intros min pos Hk.
  - destruct min as [|min].
    + specialize (Hk "" "" eq_refl (le_n 0)). simpl in Hk.
      rewrite Nat.add_0_r in Hk.
      simpl. destruct s as [|d s]; simpl.
      * rewrite Hk. reflexivity.
      * simpl in Hs. rewrite Hs, Hk. reflexivity.
    + simpl. destruct s as [|d s]; simpl; [reflexivity|].
      simpl in Hs. rewrite Hs. reflexivity.
  - simpl in Hw. apply andb_true_iff in Hw as [Hc Hw].
    simpl. rewrite Hc. rewrite (IH Hw).
    + destruct min as [|min]; [|reflexivity].
      specialize (Hk "" (String c w) eq_refl (le_n 0)). simpl in Hk.
      rewrite Nat.add_0_r in Hk. rewrite Hk. reflexivity.
    + intros a b E Hm. subst w.
      specialize (Hk (String c a) b eq_refl). simpl in Hk.
      rewrite Nat.add_succ_r in Hk. apply Hk. lia.
Qed.

(** The split the quantifier settles on: the run is [w1 ++ w2], the rest of
    the pattern accepts after [w1] and after no longer prefix. *)
Lemma greedy_split (w1 w2 s : string) (r : Tail) :
  JsString.all cls w1 = true -> JsString.all cls w2 = true -> stops_at cls s ->
  forall min pos,
    min <= String.length w1 ->
    k (pos + String.length w1) (w2 ++ s) = Some r ->
    (forall a b, w2 = a ++ b -> a <> "" ->
       k (pos + String.length w1 + String.length a) (b ++ s) = None) ->
    greedy cls min k pos (w1 ++ w2 ++ s) = Some (w1, r).
Proof.
  intros H1 H2 Hs. induction w1 as [|c w1 IH]; intros min pos Hm Hr Hk.
  - simpl in *. assert (min = 0) by lia. subst min.
    rewrite Nat.add_0_r in Hr.
    destruct w2 as [|d w2].
    + simpl in *. destruct s as [|e s]; simpl.
      * rewrite Hr. reflexivity.
      * simpl in Hs. rewrite Hs, Hr. reflexivity.
    + simpl in H2. apply andb_true_iff in H2 as [Hd H2].
      simpl. rewrite Hd. rewrite (greedy_none w2 s H2 Hs).
      * simpl in Hr. rewrite Hr. reflexivity.
      * intros a b E _. subst w2.
        specialize (Hk (String d a) b eq_refl). simpl in Hk.
        rewrite Nat.add_0_r, Nat.add_succ_r in Hk. apply Hk. discriminate.
  - simpl in H1. apply andb_true_iff in H1 as [Hc H1].
    simpl. rewrite Hc. rewrite (IH H1 (pred min) (S pos)).
    + reflexivity.
    + simpl in Hm. lia.
    + simpl in Hr. rewrite Nat.add_succ_r in Hr. exact Hr.
    + intros a b E Ha. specialize (Hk a b E Ha). simpl in Hk.
      rewrite Nat.add_succ_r in Hk. exact Hk.
Qed.

End GreedyFacts.

Section RunFacts.

Lemma run_lits_append (l : string) (ns : list Node) (s : string) :
  forall pos,
    run (lits l ++ ns)%list pos (l ++ s) = run ns (pos + String.length l) s.
Proof.
  induction l as [|c l IH]; intros pos; simpl.
  - rewrite Nat.add_0_r. reflexivity.
  - rewrite Ascii.eqb_refl, IH, Nat.add_succ_r. reflexivity.
Qed.

Lemma run_lits_inv (l : string) (ns : list Node) :
  forall pos s r,
    run (lits l ++ ns)%list pos s = Some r ->
    exists s', s = l ++ s' /\ run ns (pos + String.length l) s' = Some r.
Proof.
  induction l as [|c l IH]; intros pos s r H; simpl in H.
  - exists s. simpl. rewrite Nat.add_0_r. auto.
  - destruct s as [|d s]; [discriminate|].
    destruct (Ascii.eqb c d) eqn:E; [|discriminate].
    apply Ascii.eqb_eq in E. subst d.
    destruct (IH _ _ _ H) as (s' & -> & Hr).
    exists s'. simpl. rewrite Nat.add_succ_r. auto.
Qed.

Lemma run_repeat_eq (capture : bool) (cls : ascii -> bool) (min : nat)
    (ns : list Node) (pos : nat) (s : string) :
  run (Repeat capture cls min :: ns) pos s
  = match greedy cls min (run ns) pos s with
    | Some (taken, (e, caps)) =>
        Some (e, if capture then taken :: caps else caps)
    | None => None
    end.
Proof. reflexivity. Qed.

Lemma run_repeat_inv (capture : bool) (cls : ascii -> bool) (min : nat)
    (ns : list Node) (pos : nat) (s : string) (e : nat) (caps : list string) :
  run (Repeat capture cls min :: ns) pos s = Some (e, caps) ->
  exists taken rest caps',
    s = taken ++ rest /\ JsString.all cls taken = true
    /\ min <= String.length taken
    /\ run ns (pos + String.length taken) rest = Some (e, caps')
    /\ caps = (if capture then taken :: caps' else caps').
Proof.
  rewrite run_repeat_eq. destruct (greedy cls min (run ns) pos s) as [[taken [e' caps']]|] eqn:G;
    [|discriminate].
  intros H. inversion H; subst.
  destruct (greedy_sound _ _ _ _ _ _ _ G) as (rest & -> & Ha & Hm & Hk).
  exists taken, rest, caps'. auto.
Qed.

(** A segment group before a slash takes the whole segment. *)
Lemma run_segment (seg : string) (ns : list Node) (pos : nat) (s : string) :
  is_segment seg = true ->
  run (segment_group :: Lit "/" :: ns) pos (seg ++ "/" ++ s)
  = match run ns (S (pos + String.length seg)) s with
    | Some (e, caps) => Some (e, seg :: caps)
    | None => None
    end.
Proof.
  intros Hseg. apply is_segment_spec in Hseg as [Hne Hall].
  assert (Hlen : 1 <= String.length seg) by (destruct seg; simpl; [congruence | lia]).
  unfold segment_group. rewrite run_repeat_eq.
  destruct (run ns (S (pos + String.length seg)) s) as [[e caps]|] eqn:R.
  - assert (G : greedy not_slash 1 (run (Lit "/" :: ns)) pos (seg ++ "/" ++ s)
                = Some (seg, (e, caps))).
    { apply (greedy_split not_slash (run (Lit "/" :: ns)) seg "" ("/" ++ s)).
      - exact Hall.
      - reflexivity.
      - reflexivity.
      - exact Hlen.
      - exact R.
      - intros a b E Ha. destruct a; [congruence | discriminate]. }
    rewrite G. reflexivity.
  - assert (G : greedy not_slash 1 (run (Lit "/" :: ns)) pos (seg ++ "/" ++ s)
                = None).
    { apply (greedy_none not_slash (run (Lit "/" :: ns)) seg ("/" ++ s)).
      - exact Hall.
      - reflexivity.
      - intros a b E _. destruct b as [|c b].
        + rewrite append_nil_r in E. subst a. exact R.
        + subst seg. rewrite all_append in Hall. simpl in Hall.
          apply andb_true_iff in Hall as [_ Hall].
          apply andb_true_iff in Hall as [Hc _].
          unfold not_slash in Hc. apply negb_true_iff in Hc.
          cbn [append run]. rewrite Ascii.eqb_sym, Hc. reflexivity. }
    rewrite G. reflexivity.
Qed.

Lemma run_segment_inv (ns : list Node) (pos : nat) (s : string) (e : nat)
    (caps : list string) :
  run (segment_group :: ns) pos s = Some (e, caps) ->
  exists seg rest caps',
    s = seg ++ rest /\ is_segment seg = true /\ caps = seg :: caps'
    /\ run ns (pos + String.length seg) rest = Some (e, caps').
Proof.
  intros H. apply run_repeat_inv in H
    as (seg & rest & caps' & -> & Ha & Hm & Hr & ->).
  exists seg, rest, caps'. repeat split; auto.
  apply is_segment_spec. split; [|exact Ha].
  destruct seg; simpl in Hm; [lia | discriminate].
Qed.

(** The last group takes the whole rest, which must be a single line. *)
Lemma run_rest (f : string) :
  forall pos,
    run rest_group pos f
    = if single_line f then Some (pos + String.length f, [f]) else None.
Proof.
  unfold rest_group, single_line.
  assert (G : forall pos,
    greedy dot 0 (run [Eol]) pos f
    = if JsString.all dot f then Some (f, (pos + String.length f, []))
      else None).
  { induction f as [|c f IH]; intros pos; simpl.
    - rewrite Nat.add_0_r. reflexivity.
    - destruct (dot c) eqn:Hc; simpl; [|reflexivity].
      rewrite IH. destruct (JsString.all dot f); [|reflexivity].
      rewrite Nat.add_succ_r. reflexivity. }
  intros pos. rewrite run_repeat_eq, G.
  destruct (JsString.all dot f); reflexivity.
Qed.

(** A pattern that ends in [$] matches up to the end of the input. *)
Lemma run_to_end (ns : list Node) :
  forall pos s e caps,
    run (ns ++ [Eol])%list pos s = Some (e, caps) -> e = pos + String.length s.
Proof.
  induction ns as [|n ns IH]; intros pos s e caps H.
  - simpl in H. destruct s; [|discriminate]. inversion H. simpl. lia.
  - destruct n as [| |c|capture cls min].
    + simpl in H. destruct (pos =? 0)%nat; [|discriminate]. eauto.
    + simpl in H. destruct s; [|discriminate]. eauto.
    + simpl in H. destruct s as [|d s]; [discriminate|].
      destruct (Ascii.eqb c d); [|discriminate].
      apply IH in H. simpl. lia.
    + change ((Repeat capture cls min :: ns) ++ [Eol])%list
        with (Repeat capture cls min :: (ns ++ [Eol]))%list in H.
      apply run_repeat_inv in H as (taken & rest & caps' & -> & _ & _ & Hr & _).
      apply IH in Hr. rewrite length_append. lia.
Qed.

(** A pattern that starts with [^] matches at the start or not at all. *)
Lemma scan_bol_later (ns : list Node) (s : string) :
  forall pos, pos <> 0 -> scan (Bol :: ns) pos s = None.
Proof.
  induction s as [|c s IH]; intros pos Hpos; simpl;
    destruct (Nat.eqb_spec pos 0); try contradiction; auto.
Qed.

(** [input.match(re)] for a pattern between [^] and [$]: the array starts
    with the whole input. *)
Lemma exec_anchored (ns : list Node) (s : string) :
  exec (Bol :: ns ++ [Eol])%list s
  = match run (ns ++ [Eol])%list 0 s with
    | Some (_, caps) => Some (s :: caps)
    | None => None
    end.
Proof.
  unfold exec.
  assert (S0 : scan (Bol :: ns ++ [Eol])%list 0 s
               = option_map (pair 0) (run (ns ++ [Eol])%list 0 s)).
  { destruct s as [|c s]; simpl.
    - destruct (run (ns ++ [Eol])%list 0 ""); reflexivity.
    - destruct (run (ns ++ [Eol])%list 0 (String c s)); [reflexivity|].
      apply scan_bol_later. discriminate. }
  rewrite S0. destruct (run (ns ++ [Eol])%list 0 s) as [[e caps]|] eqn:R;
    simpl; [|reflexivity].
  apply run_to_end in R. subst e. simpl.
  rewrite Nat.sub_0_r, substring_all. reflexivity.
Qed.

End RunFacts.

(** * The four expressions on the paths of their shapes *)

Section ShapeFacts.

Lemma at_before_last_split (a b : string) :
  at_before_last (a ++ String "@" b) = false -> b = "".
Proof.
  induction a as [|c a IH]; simpl; intros H.
  - apply orb_false_iff in H as [H _]. simpl in H.
    apply negb_false_iff, String.eqb_eq in H. exact H.
  - apply orb_false_iff in H as [_ H]. auto.
Qed.

Lemma inner_at_split (a b : string) :
  a <> "" -> inner_at (a ++ String "@" b) = false -> b = "".
Proof.
  destruct a as [|c a]; [congruence|]. simpl. intros _.
  apply at_before_last_split.
Qed.

Lemma is_segment_length (s : string) :
  is_segment s = true -> 1 <= String.length s.
Proof.
  intros H. apply is_segment_spec in H as [H _].
  destruct s; simpl; [congruence | lia].
Qed.

Lemma is_segment_all (s : string) :
  is_segment s = true -> JsString.all not_slash s = true.
Proof. intros H. apply is_segment_spec in H. tauto. Qed.

(** ** Release, blob and raw *)

Lemma exec_slash (l s : string) :
  exec (Bol :: slash_body l) s
  = match run (slash_body l) 0 s with
    | Some (_, caps) => Some (s :: caps)
    | None => None
    end.
Proof.
  assert (E : slash_body l
              = ((lits "/gh/" ++ segment_group :: Lit "/" :: segment_group
                    :: Lit "/" :: lits l
                    ++ [segment_group; Lit "/"; Repeat true dot 0])
                 ++ [Eol])%list).
  { unfold slash_body, rest_group. simpl.
    rewrite <- app_assoc. reflexivity. }
  rewrite E. apply exec_anchored.
Qed.

Lemma run_ref_file (t f : string) (pos : nat) :
  is_segment t = true -> single_line f = true ->
  run (segment_group :: Lit "/" :: rest_group) pos (t ++ "/" ++ f)
  = Some (S (pos + String.length t) + String.length f, [t; f]).
Proof.
  intros Ht Hf. rewrite (run_segment t _ _ _ Ht), run_rest, Hf. reflexivity.
Qed.

Lemma slash_matches (l o r t f : string) :
  is_segment o = true -> is_segment r = true -> is_segment t = true ->
  single_line f = true ->
  exec (Bol :: slash_body l) (slash_path l o r t f)
  = Some [slash_path l o r t f; o; r; t; f].
Proof.
  intros Ho Hr Ht Hf. rewrite exec_slash.
  unfold slash_body, slash_path at 1.
  rewrite (run_lits_append "/gh/").
  rewrite (run_segment o _ _ _ Ho), (run_segment r _ _ _ Hr).
  rewrite (run_lits_append l), (run_ref_file t f _ Ht Hf).
  reflexivity.
Qed.

Lemma run_lit_inv (c : ascii) (ns : list Node) (pos : nat) (s : string)
    (r : Tail) :
  run (Lit c :: ns) pos s = Some r ->
  exists s', s = String c s' /\ run ns (S pos) s' = Some r.
Proof.
  simpl. destruct s as [|d s]; [discriminate|].
  destruct (Ascii.eqb c d) eqn:E; [|discriminate].
  apply Ascii.eqb_eq in E. subst d. eauto.
Qed.

Lemma run_ref_file_inv (pos : nat) (s : string) (e : nat)
    (caps : list string) :
  run (segment_group :: Lit "/" :: rest_group) pos s = Some (e, caps) ->
  exists t f,
    s = t ++ "/" ++ f /\ is_segment t = true /\ single_line f = true
    /\ caps = [t; f].
Proof.
  intros H. apply run_segment_inv in H as (t & s1 & caps1 & -> & Ht & -> & H).
  apply run_lit_inv in H as (f & -> & H).
  rewrite run_rest in H. destruct (single_line f) eqn:Hf; [|discriminate].
  inversion H; subst. exists t, f. auto.
Qed.

Lemma slash_inv (l s : string) (caps : list string) :
  exec (Bol :: slash_body l) s = Some caps ->
  exists o r t f,
    s = slash_path l o r t f /\ is_segment o = true /\ is_segment r = true
    /\ is_segment t = true /\ single_line f = true /\ caps = [s; o; r; t; f].
Proof.
  rewrite exec_slash.
  destruct (run (slash_body l) 0 s) as [[e caps']|] eqn:H; [|discriminate].
  intros E. inversion E; subst caps. clear E.
  unfold slash_body in H.
  apply run_lits_inv in H as (s1 & -> & H).
  apply run_segment_inv in H as (o & s2 & caps2 & -> & Ho & -> & H).
  apply run_lit_inv in H as (s3 & -> & H).
  apply run_segment_inv in H as (r & s4 & caps4 & -> & Hr & -> & H).
  apply run_lit_inv in H as (s5 & -> & H).
  apply run_lits_inv in H as (s6 & -> & H).
  apply run_ref_file_inv in H as (t & f & -> & Ht & Hf & ->).
  exists o, r, t, f. repeat split; auto.
Qed.

(** ** Short version *)

Lemma exec_version (s : string) :
  exec version_re s
  = match run version_body 0 s with
    | Some (_, caps) => Some (s :: caps)
    | None => None
    end.
Proof.
  change version_re
    with (Bol :: (lits "/gh/" ++ [segment_group; Lit "/"; segment_group;
                                  Lit "@"; segment_group; Lit "/";
                                  Repeat true dot 0]) ++ [Eol])%list.
  rewrite exec_anchored. reflexivity.
Qed.

(** The repository group gives back characters until the tag group can
    start after an [@] and end before the slash: the split is at the last
    [@] that has a character after it. *)
Lemma run_repo_tag (r t f : string) (pos : nat) :
  is_segment r = true -> is_segment t = true -> at_before_last t = false ->
  single_line f = true ->
  run (segment_group :: Lit "@" :: segment_group :: Lit "/" :: rest_group)
      pos (r ++ "@" ++ t ++ "/" ++ f)
  = Some (S (S (pos + String.length r) + String.length t) + String.length f,
          [r; t; f]).
Proof.
  intros Hr Ht Hat Hf. unfold segment_group at 1. rewrite run_repeat_eq.
  assert (G : greedy not_slash 1
                (run (Lit "@" :: segment_group :: Lit "/" :: rest_group))
                pos (r ++ "@" ++ t ++ "/" ++ f)
              = Some (r, (S (S (pos + String.length r) + String.length t)
                          + String.length f, [t; f]))).
  { apply (greedy_split not_slash _ r ("@" ++ t) ("/" ++ f)).
    - apply is_segment_all, Hr.
    - simpl. apply is_segment_all, Ht.
    - reflexivity.
    - apply is_segment_length, Hr.
    - cbn [append run]. cbn [Ascii.eqb Bool.eqb]. cbv iota.
      apply (run_ref_file t f _ Ht Hf).
    - intros a b E Ha. destruct a as [|c a]; [congruence|].
      simpl in E. inversion E; subst c t. clear E.
      destruct b as [|d b]; [reflexivity|].
      cbn [append run]. destruct (Ascii.eqb "@" d) eqn:Ed; [|reflexivity].
      apply Ascii.eqb_eq in Ed. subst d.
      apply at_before_last_split in Hat. subst b. reflexivity. }
  rewrite G. reflexivity.
Qed.

Lemma version_matches (o r t f : string) :
  is_segment o = true -> is_segment r = true -> is_segment t = true ->
  at_before_last t = false -> single_line f = true ->
  exec version_re (version_path o r t f)
  = Some [version_path o r t f; o; r; t; f].
Proof.
  intros Ho Hr Ht Hat Hf. rewrite exec_version.
  unfold version_body, version_path at 1.
  rewrite (run_lits_append "/gh/"), (run_segment o _ _ _ Ho).
  rewrite (run_repo_tag r t f _ Hr Ht Hat Hf). reflexivity.
Qed.

Lemma version_inv (s : string) (caps : list string) :
  exec version_re s = Some caps ->
  exists o r t f,
    s = version_path o r t f /\ is_segment o = true /\ is_segment r = true
    /\ is_segment t = true /\ single_line f = true /\ caps = [s; o; r; t; f].
Proof.
  rewrite exec_version.
  destruct (run version_body 0 s) as [[e caps']|] eqn:H; [|discriminate].
  intros E. inversion E; subst caps. clear E.
  unfold version_body in H.
  apply run_lits_inv in H as (s1 & -> & H).
  apply run_segment_inv in H as (o & s2 & caps2 & -> & Ho & -> & H).
  apply run_lit_inv in H as (s3 & -> & H).
  apply run_segment_inv in H as (r & s4 & caps4 & -> & Hr & -> & H).
  apply run_lit_inv in H as (s5 & -> & H).
  apply run_ref_file_inv in H as (t & f & -> & Ht & Hf & ->).
  exists o, r, t, f. repeat split; auto.
Qed.

(** Without an [@] inside the second segment there is no short version. *)
Lemma version_no_match (o r x : string) :
  is_segment o = true -> is_segment r = true -> inner_at r = false ->
  exec version_re ("/gh/" ++ o ++ "/" ++ r ++ "/" ++ x) = None.
Proof.
  intros Ho Hr Hat. rewrite exec_version. unfold version_body.
  rewrite (run_lits_append "/gh/"), (run_segment o _ _ _ Ho).
  unfold segment_group at 1. rewrite run_repeat_eq.
  assert (G : greedy not_slash 1
                (run (Lit "@" :: segment_group :: Lit "/" :: rest_group))
                (S (0 + String.length "/gh/" + String.length o))
                (r ++ "/" ++ x) = None).
  { apply (greedy_none not_slash _ r ("/" ++ x)).
    - apply is_segment_all, Hr.
    - reflexivity.
    - intros a b E Ha. destruct b as [|d b]; [reflexivity|].
      cbn [append run]. destruct (Ascii.eqb "@" d) eqn:Ed; [|reflexivity].
      apply Ascii.eqb_eq in Ed. subst d r.
      apply inner_at_split in Hat.
      + subst b. reflexivity.
      + destruct a; simpl in Ha; [lia | discriminate]. }
  rewrite G. reflexivity.
Qed.

End ShapeFacts.

(** * Facts about headers *)

Section HeaderFacts.

Lemma same_name_true (a b : string) :
  Headers.same_name a b = true
  <-> JsString.toLowerCase a = JsString.toLowerCase b.
Proof. unfold Headers.same_name. apply String.eqb_eq. Qed.

Lemma same_name_refl (a : string) : Headers.same_name a a = true.
Proof. apply same_name_true. reflexivity. Qed.

(** A name that differs from [name] differs from every name like [name]. *)
Lemma same_name_other (n name other : string) :
  Headers.same_name n name = true ->
  Headers.same_name other name = false ->
  Headers.same_name n other = false.
Proof.
  intros H1 H2. apply same_name_true in H1.
  unfold Headers.same_name in *. rewrite H1.
  rewrite String.eqb_sym. exact H2.
Qed.

Lemma values_remove_same (name : string) (h : Headers.t) :
  Headers.values name (Headers.remove name h) = [].
Proof.
  unfold Headers.values, Headers.remove.
  induction h as [|[n v] h IH]; simpl; [reflexivity|].
  destruct (Headers.same_name n name) eqn:E; simpl; [exact IH|].
  rewrite E. exact IH.
Qed.

Lemma values_remove_other (name other : string) (h : Headers.t) :
  Headers.same_name other name = false ->
  Headers.values other (Headers.remove name h) = Headers.values other h.
Proof.
  intros Ho. unfold Headers.values, Headers.remove.
  induction h as [|[n v] h IH]; simpl; [reflexivity|].
  destruct (Headers.same_name n name) eqn:E; simpl.
  - rewrite (same_name_other _ _ _ E Ho). exact IH.
  - destruct (Headers.same_name n other); simpl; congruence.
Qed.

(** After [set], the header has the one value that was set. *)
Lemma values_set_same (name value : string) (h : Headers.t) :
  Headers.values name (Headers.set name value h) = [value].
Proof.
  induction h as [|[n v] h IH]; simpl.
  - unfold Headers.values. simpl. rewrite same_name_refl. reflexivity.
  - destruct (Headers.same_name n name) eqn:E.
    + unfold Headers.values. simpl. rewrite E. simpl.
      f_equal. apply values_remove_same.
    + unfold Headers.values in *. simpl. rewrite E. exact IH.
Qed.

Lemma values_cons (other n v : string) (h : Headers.t) :
  Headers.values other ((n, v) :: h)
  = if Headers.same_name n other then v :: Headers.values other h
    else Headers.values other h.
Proof.
  unfold Headers.values. simpl.
  destruct (Headers.same_name n other); reflexivity.
Qed.

(** [set] leaves the headers of every other name as they were. *)
Lemma values_set_other (name value other : string) (h : Headers.t) :
  Headers.same_name other name = false ->
  Headers.values other (Headers.set name value h) = Headers.values other h.
Proof.
  intros Ho. induction h as [|[n v] h IH]; simpl.
  - rewrite values_cons.
    rewrite (same_name_other _ _ _ (same_name_refl name) Ho). reflexivity.
  - destruct (Headers.same_name n name) eqn:E.
    + rewrite !values_cons, (same_name_other _ _ _ E Ho).
      apply values_remove_other, Ho.
    + rewrite !values_cons, IH. reflexivity.
Qed.

Lemma get_set_same (name value : string) (h : Headers.t) :
  Headers.get name (Headers.set name value h) = Some value.
Proof. unfold Headers.get. rewrite values_set_same. reflexivity. Qed.

Lemma get_set_other (name value other : string) (h : Headers.t) :
  Headers.same_name other name = false ->
  Headers.get other (Headers.set name value h) = Headers.get other h.
Proof.
  intros Ho. unfold Headers.get. rewrite (values_set_other _ _ _ _ Ho).
  reflexivity.
Qed.

End HeaderFacts.

(** * The handlers, step by step *)

Section HandlerFacts.

Variable network : Network.

Lemma new_Response_stream (st : Z) (h : Headers.t) (payload : string) :
  ((st <? 200) || (599 <? st))%Z = false ->
  new_Response (if null_body_status st then None else Some (Stream payload))
    st h
  = Normal (mkResponse st h
              (if null_body_status st then None else Some (Stream payload))).
Proof.
  intros H. unfold new_Response. rewrite H.
  destruct (null_body_status st); reflexivity.
Qed.

Lemma new_Response_range (b : option Body) (st : Z) (h : Headers.t) :
  ((st <? 200) || (599 <? st))%Z = true ->
  new_Response b st h = Throw RangeError.
Proof. intros H. unfold new_Response. rewrite H. reflexivity. Qed.

(** One fetch, then the response with the CORS header, when the platform
    constructs one. *)
Lemma fetchWithCors_eval (u : string) (request : Request) (w : World) :
  fetchWithCors network u request w
  = match network (sent w) (get_request u) with
    | Fails => (Throw NetworkFailure, after_fetch w u)
    | Replies st h payload =>
        if ((st <? 200) || (599 <? st))%Z
        then (Throw RangeError, after_fetch w u)
        else (Normal (relayed st h payload), after_fetch w u)
    end.
Proof.
  unfold fetchWithCors, bind, fetch, complete, Headers.copy.
  fold (get_request u). fold (after_fetch w u).
  destruct (network (sent w) (get_request u)) as [|st h payload];
    [reflexivity|].
  cbn [status headers body].
  destruct ((st <? 200) || (599 <? st))%Z eqn:R.
  - rewrite (new_Response_range _ _ _ R). reflexivity.
  - rewrite (new_Response_stream _ _ _ R). reflexivity.
Qed.

(** The release branch: the probe, then the relay, every exception caught. *)
Lemma probe_then_relay_eval (o r t f : string) (request : Request)
    (w : World) :
  let u := "https://github.com/" ++ o ++ "/" ++ r ++ "/releases/download/"
           ++ t ++ "/" ++ f in
  probe_then_relay network (Some o) (Some r) (Some t) (Some f) request w
  = match network (sent w) (get_request u) with
    | Fails =>
        (Normal (text_response 500 "Internal Server Error"), after_fetch w u)
    | Replies st h payload =>
        if ((200 <=? st) && (st <=? 299))%Z then
          match network (sent (after_fetch w u)) (get_request u) with
          | Fails =>
              (Normal (text_response 500 "Internal Server Error"),
               after_fetch (after_fetch w u) u)
          | Replies st2 h2 payload2 =>
              if ((st2 <? 200) || (599 <? st2))%Z
              then (Normal (text_response 500 "Internal Server Error"),
                    after_fetch (after_fetch w u) u)
              else (Normal (relayed st2 h2 payload2),
                    after_fetch (after_fetch w u) u)
          end
        else
          (Normal (text_response 404 "File not found"),
           mkWorld (sent w ++ [get_request u])%list
             (console w ++ [[LogStr "GitHub response not OK:"; LogNum st]])%list)
    end.
Proof.
  intros u. unfold probe_then_relay. cbn [interpolate]. fold u.
  unfold try_catch, bind at 1. unfold fetch at 1.
  fold (get_request u). fold (after_fetch w u).
  destruct (network (sent w) (get_request u)) as [|st h payload];
    [reflexivity|].
  unfold ok. cbn [status].
  destruct ((200 <=? st) && (st <=? 299))%Z; cbn [negb].
  - rewrite fetchWithCors_eval.
    destruct (network (sent (after_fetch w u)) (get_request u))
      as [|st2 h2 payload2]; [reflexivity|].
    destruct ((st2 <? 200) || (599 <? st2))%Z; reflexivity.
  - reflexivity.
Qed.

Lemma handle_release (path : string) (request : Request)
    (m : list string) :
  exec release_re path = Some m ->
  handleGitHubRequest network path request
  = probe_then_relay network (nth_error m 1) (nth_error m 2) (nth_error m 3)
      (nth_error m 4) request.
Proof.
  intros H. unfold handleGitHubRequest. rewrite H. reflexivity.
Qed.

Lemma handle_version (path : string) (request : Request)
    (m : list string) :
  exec release_re path = None -> exec version_re path = Some m ->
  handleGitHubRequest network path request
  = fetchWithCors network
      ("https://github.com/" ++ interpolate (nth_error m 1) ++ "/"
       ++ interpolate (nth_error m 2) ++ "/raw/refs/tags/"
       ++ interpolate (nth_error m 3) ++ "/" ++ interpolate (nth_error m 4))
      request.
Proof.
  intros H1 H2. unfold handleGitHubRequest. rewrite H1, H2. reflexivity.
Qed.

Lemma handle_blob (path : string) (request : Request) (m : list string) :
  exec release_re path = None -> exec version_re path = None ->
  exec blob_re path = Some m ->
  handleGitHubRequest network path request
  = fetchWithCors network
      ("https://raw.githubusercontent.com/" ++ interpolate (nth_error m 1)
       ++ "/" ++ interpolate (nth_error m 2) ++ "/"
       ++ interpolate (nth_error m 3) ++ "/" ++ interpolate (nth_error m 4))
      request.
Proof.
  intros H1 H2 H3. unfold handleGitHubRequest. rewrite H1, H2, H3.
  reflexivity.
Qed.

Lemma handle_raw (path : string) (request : Request) (m : list string) :
  exec release_re path = None -> exec version_re path = None ->
  exec blob_re path = None -> exec raw_re path = Some m ->
  handleGitHubRequest network path request
  = fetchWithCors network
      ("https://raw.githubusercontent.com/" ++ interpolate (nth_error m 1)
       ++ "/" ++ interpolate (nth_error m 2) ++ "/"
       ++ interpolate (nth_error m 3) ++ "/" ++ interpolate (nth_error m 4))
      request.
Proof.
  intros H1 H2 H3 H4. unfold handleGitHubRequest. rewrite H1, H2, H3, H4.
  reflexivity.
Qed.

Lemma handle_none (path : string) (request : Request) :
  exec release_re path = None -> exec version_re path = None ->
  exec blob_re path = None -> exec raw_re path = None ->
  handleGitHubRequest network path request
  = complete (new_Response (Some (Text generateUsageGuide)) 400
                [("Content-Type", "text/html")]).
Proof.
  intros H1 H2 H3 H4. unfold handleGitHubRequest. rewrite H1, H2, H3, H4.
  reflexivity.
Qed.

End HandlerFacts.

(** * The expressions against each other *)

Section Overlap.

Lemma release_re_slash : release_re = (Bol :: slash_body "releases/download/")%list.
Proof. reflexivity. Qed.

Lemma blob_re_slash : blob_re = (Bol :: slash_body "blob/")%list.
Proof. reflexivity. Qed.

Lemma raw_re_slash : raw_re = (Bol :: slash_body "raw/")%list.
Proof. reflexivity. Qed.

Lemma release_matches (o r t f : string) :
  is_segment o = true -> is_segment r = true -> is_segment t = true ->
  single_line f = true ->
  exec release_re (release_path o r t f)
  = Some [release_path o r t f; o; r; t; f].
Proof. exact (slash_matches "releases/download/" o r t f). Qed.

Lemma blob_matches (o r t f : string) :
  is_segment o = true -> is_segment r = true -> is_segment t = true ->
  single_line f = true ->
  exec blob_re (blob_path o r t f) = Some [blob_path o r t f; o; r; t; f].
Proof. exact (slash_matches "blob/" o r t f). Qed.

Lemma raw_matches (o r t f : string) :
  is_segment o = true -> is_segment r = true -> is_segment t = true ->
  single_line f = true ->
  exec raw_re (raw_path o r t f) = Some [raw_path o r t f; o; r; t; f].
Proof. exact (slash_matches "raw/" o r t f). Qed.

(** Two paths of slash shapes that are one path have the same owner and
    repository, and go on alike. *)
Lemma slash_path_eq (l1 l2 o1 r1 t1 f1 o2 r2 t2 f2 : string) :
  is_segment o1 = true -> is_segment r1 = true ->
  is_segment o2 = true -> is_segment r2 = true ->
  slash_path l1 o1 r1 t1 f1 = slash_path l2 o2 r2 t2 f2 ->
  o1 = o2 /\ r1 = r2 /\ l1 ++ t1 ++ "/" ++ f1 = l2 ++ t2 ++ "/" ++ f2.
Proof.
  intros Ho1 Hr1 Ho2 Hr2 E. unfold slash_path in E.
  simpl in E. inversion E as [E1]. clear E.
  apply segment_split_unique in E1 as [-> E1]; try apply is_segment_all; auto.
  apply segment_split_unique in E1 as [-> E1]; try apply is_segment_all; auto.
Qed.

(** Expressions whose literals cannot start the same text match no path
    in common. *)
Lemma slash_disjoint (l1 l2 s : string) :
  (forall x y, l1 ++ x <> l2 ++ y) ->
  exec (Bol :: slash_body l1) s = None \/ exec (Bol :: slash_body l2) s = None.
Proof.
  intros Hl.
  destruct (exec (Bol :: slash_body l1) s) as [c1|] eqn:E1; [|auto].
  destruct (exec (Bol :: slash_body l2) s) as [c2|] eqn:E2; [|auto].
  exfalso.
  apply slash_inv in E1 as (o1 & r1 & t1 & f1 & -> & Ho1 & Hr1 & _).
  apply slash_inv in E2 as (o2 & r2 & t2 & f2 & E & Ho2 & Hr2 & _).
  destruct (slash_path_eq _ _ _ _ _ _ _ _ _ _ Ho1 Hr1 Ho2 Hr2 E)
    as (_ & _ & E').
  exact (Hl _ _ E').
Qed.

Lemma release_or_blob (s : string) :
  exec release_re s = None \/ exec blob_re s = None.
Proof.
  apply (slash_disjoint "releases/download/" "blob/").
  intros x y E. discriminate E.
Qed.

Lemma release_or_raw (s : string) :
  exec release_re s = None \/ exec raw_re s = None.
Proof.
  apply (slash_disjoint "releases/download/" "raw/").
  intros x y E. discriminate E.
Qed.

Lemma blob_or_raw (s : string) :
  exec blob_re s = None \/ exec raw_re s = None.
Proof.
  apply (slash_disjoint "blob/" "raw/").
  intros x y E. discriminate E.
Qed.

(** Where the short version matches beside a slash shape, the slash
    shape's repository holds the short version's [@] inside. *)
Lemma version_beside_slash (l s : string) (m : list string) :
  exec version_re s <> None ->
  exec (Bol :: slash_body l) s = Some m ->
  exists repo, nth_error m 2 = Some repo /\ inner_at repo = true.
Proof.
  intros Hv Hs.
  destruct (exec version_re s) as [mv|] eqn:Ev; [clear Hv | congruence].
  apply version_inv in Ev as (o1 & r1 & t1 & f1 & -> & Ho1 & Hr1 & Ht1 & _).
  apply slash_inv in Hs as (o2 & r2 & t2 & f2 & E & Ho2 & Hr2 & _ & _ & ->).
  exists r2. split; [reflexivity|].
  unfold version_path, slash_path in E. simpl in E. inversion E as [E1].
  apply segment_split_unique in E1 as [<- E1]; try apply is_segment_all; auto.
  change (r1 ++ "@" ++ t1 ++ "/" ++ f1)
    with (r1 ++ String "@" (t1 ++ "/" ++ f1)) in E1.
  assert (E2 : (r1 ++ String "@" t1) ++ "/" ++ f1 = r2 ++ "/" ++ l ++ t2 ++ "/" ++ f2).
  { rewrite append_assoc. exact E1. }
  apply segment_split_unique in E2 as [<- _].
  - destruct r1 as [|c r1]; [discriminate Hr1|].
    destruct t1 as [|d t1]; [discriminate Ht1|].
    simpl. clear. induction r1 as [|e r1 IH]; simpl.
    + reflexivity.
    + rewrite IH. apply orb_true_r.
  - rewrite all_append. rewrite (is_segment_all _ Hr1). simpl.
    apply is_segment_all, Ht1.
  - apply is_segment_all, Hr2.
Qed.

End Overlap.

(** * The properties of the specification *)

(** ** C3: the release-download shape *)

(** C3.  For every path [/gh/<owner>/<repo>/releases/download/<tag>/<file>]
    the upstream URL is
    [https://github.com/<owner>/<repo>/releases/download/<tag>/<file>] and a
    probe is fetched from it first.  A probe status outside 200..299 ends
    in the synthetic 404 [File not found] without a second fetch; after a
    successful probe the same URL is fetched again and that reply is
    relayed with the CORS header (a failure of either fetch, or of the
    construction of the relayed response, ends in the synthetic 500). *)
Theorem release_download_probes_then_relays (network : Network)
    (request : Request) (w : World) (owner repo tag file : string) :
  is_segment owner = true -> is_segment repo = true ->
  is_segment tag = true -> single_line file = true ->
  let u := "https://github.com/" ++ owner ++ "/" ++ repo
           ++ "/releases/download/" ++ tag ++ "/" ++ file in
  handleGitHubRequest network (release_path owner repo tag file) request w
  = match network (sent w) (get_request u) with
    | Fails =>
        (Normal (text_response 500 "Internal Server Error"), after_fetch w u)
    | Replies st h payload =>
        if ((200 <=? st) && (st <=? 299))%Z then
          match network (sent (after_fetch w u)) (get_request u) with
          | Fails =>
              (Normal (text_response 500 "Internal Server Error"),
               after_fetch (after_fetch w u) u)
          | Replies st2 h2 payload2 =>
              if ((st2 <? 200) || (599 <? st2))%Z
              then (Normal (text_response 500 "Internal Server Error"),
                    after_fetch (after_fetch w u) u)
              else (Normal (relayed st2 h2 payload2),
                    after_fetch (after_fetch w u) u)
          end
        else
          (Normal (text_response 404 "File not found"),
           mkWorld (sent w ++ [get_request u])%list
             (console w ++ [[LogStr "GitHub response not OK:"; LogNum st]])%list)
    end.
Proof.
  intros Ho Hr Ht Hf u.
  rewrite (handle_release network _ request _ (release_matches _ _ _ _ Ho Hr Ht Hf)).
  cbn [nth_error]. apply probe_then_relay_eval.
Qed.

(** The spec's example: a probe that meets a 404 ends in [File not found]
    after one fetch; one that meets a 200 is followed by the relay. *)
Lemma release_download_example :
  handleGitHubRequest network_missing
    (release_path "torvalds" "linux" "v6.1" "patch.gz")
    (request_for "/3lwqk/gh/torvalds/linux/releases/download/v6.1/patch.gz")
    world0
  = (Normal (text_response 404 "File not found"),
     mkWorld
       [get_request
          "https://github.com/torvalds/linux/releases/download/v6.1/patch.gz"]
       [[LogStr "GitHub response not OK:"; LogNum 404]])
  /\ handleGitHubRequest network_up
       (release_path "torvalds" "linux" "v6.1" "patch.gz")
       (request_for "/3lwqk/gh/torvalds/linux/releases/download/v6.1/patch.gz")
       world0
     = (Normal
          (relayed 200
             [("Content-Type", "application/octet-stream");
              ("Access-Control-Allow-Origin", "https://github.com")]
             "payload"),
        mkWorld
          [get_request
             "https://github.com/torvalds/linux/releases/download/v6.1/patch.gz";
           get_request
             "https://github.com/torvalds/linux/releases/download/v6.1/patch.gz"]
          []).
Proof.
  split.
  - exact (release_download_probes_then_relays network_missing
             (request_for
                "/3lwqk/gh/torvalds/linux/releases/download/v6.1/patch.gz")
             world0 "torvalds" "linux" "v6.1" "patch.gz"
             eq_refl eq_refl eq_refl eq_refl).
  - exact (release_download_probes_then_relays network_up
             (request_for
                "/3lwqk/gh/torvalds/linux/releases/download/v6.1/patch.gz")
             world0 "torvalds" "linux" "v6.1" "patch.gz"
             eq_refl eq_refl eq_refl eq_refl).
Defined.

(** ** C5: the relayed response *)

(** C5.  Every response that [fetchWithCors] returns relays a reply of the
    network: it has the reply's status and body, its header
    [access-control-allow-origin] is [*] whatever the reply set, and the
    headers of every other name are the reply's. *)
Theorem relayed_response_sets_cors_only (network : Network) (u : string)
    (request : Request) (w w' : World) (r : Response) :
  fetchWithCors network u request w = (Normal r, w') ->
  exists st h payload,
    network (sent w) (get_request u) = Replies st h payload
    /\ status r = st
    /\ body r = (if null_body_status st then None else Some (Stream payload))
    /\ Headers.get "access-control-allow-origin" (headers r) = Some "*"
    /\ (forall name,
          Headers.same_name name "access-control-allow-origin" = false ->
          Headers.values name (headers r) = Headers.values name h
          /\ Headers.get name (headers r) = Headers.get name h).
Proof.
  rewrite fetchWithCors_eval.
  destruct (network (sent w) (get_request u)) as [|st h payload];
    [discriminate|].
  destruct ((st <? 200) || (599 <? st))%Z; [discriminate|].
  intros E. inversion E; subst. clear E.
  exists st, h, payload. repeat split.
  - apply get_set_same.
  - apply values_set_other. assumption.
  - apply get_set_other. assumption.
Qed.

(** A reply that sets the CORS header to one origin is relayed with [*]
    and with its content type. *)
Lemma relayed_response_example :
  exists st h payload,
    network_up (sent world0) (get_request "https://github.com/o/r/raw/refs/tags/t/f")
    = Replies st h payload
    /\ status (relayed 200
                 [("Content-Type", "application/octet-stream");
                  ("Access-Control-Allow-Origin", "https://github.com")]
                 "payload") = st
    /\ body (relayed 200
               [("Content-Type", "application/octet-stream");
                ("Access-Control-Allow-Origin", "https://github.com")]
               "payload")
       = (if null_body_status st then None else Some (Stream payload))
    /\ Headers.get "access-control-allow-origin"
         (headers (relayed 200
                     [("Content-Type", "application/octet-stream");
                      ("Access-Control-Allow-Origin", "https://github.com")]
                     "payload")) = Some "*"
    /\ (forall name,
          Headers.same_name name "access-control-allow-origin" = false ->
          Headers.values name
            (headers (relayed 200
                        [("Content-Type", "application/octet-stream");
                         ("Access-Control-Allow-Origin", "https://github.com")]
                        "payload"))
          = Headers.values name h
          /\ Headers.get name
               (headers (relayed 200
                           [("Content-Type", "application/octet-stream");
                            ("Access-Control-Allow-Origin", "https://github.com")]
                           "payload"))
             = Headers.get name h).
Proof.
  apply (relayed_response_sets_cors_only network_up
           "https://github.com/o/r/raw/refs/tags/t/f"
           (request_for "/3lwqk/gh/o/r@t/f") world0
           (after_fetch world0 "https://github.com/o/r/raw/refs/tags/t/f")).
  reflexivity.
Defined.

(** A reply with a status that a response can be constructed with is
    relayed: the response of [fetchWithCors] exists and is [relayed]. *)
Lemma reply_in_range_is_relayed (network : Network) (u : string)
    (request : Request) (w : World) (st : Z) (h : Headers.t)
    (payload : string) :
  network (sent w) (get_request u) = Replies st h payload ->
  (200 <= st <= 599)%Z ->
  fetchWithCors network u request w
  = (Normal (relayed st h payload), after_fetch w u).
Proof.
  intros H R. rewrite fetchWithCors_eval, H.
  replace ((st <? 200) || (599 <? st))%Z with false; [reflexivity|].
  symmetry. apply orb_false_iff. split; apply Z.ltb_ge; lia.
Qed.

Lemma reply_in_range_example :
  fetchWithCors network_missing "https://github.com/o/r/raw/refs/tags/t/f"
    (request_for "/3lwqk/gh/o/r@t/f") world0
  = (Normal (relayed 404 [] ""),
     after_fetch world0 "https://github.com/o/r/raw/refs/tags/t/f").
Proof.
  apply (reply_in_range_is_relayed network_missing
           "https://github.com/o/r/raw/refs/tags/t/f"
           (request_for "/3lwqk/gh/o/r@t/f") world0 404 [] "");
    [reflexivity | lia].
Defined.

(** ** C8: the two gates *)

Lemma gates_as_one_prefix (path : string) :
  JsString.startsWith path (PREFIX_ACCESS ++ PREFIX_GH)
  = JsString.startsWith path PREFIX_ACCESS
    && JsString.startsWith (JsString.replace path PREFIX_ACCESS "") PREFIX_GH.
Proof.
  unfold JsString.startsWith. rewrite prefix_of_append.
  destruct (String.prefix PREFIX_ACCESS path) eqn:H; [|reflexivity].
  rewrite (replace_prefix _ _ H). reflexivity.
Qed.

(** C8.  A request whose path does not start with the access prefix, and
    one whose path starts with it but does not go on with [/gh/], is
    answered 404 with the body [404 Not Found]; the two tests together are
    one test of the path against the text of the access prefix followed by
    [/gh/], and exactly the requests that pass it are handed, without the
    access prefix, to the classification by [handleGitHubRequest]. *)
Theorem gates_reject_with_404 (network : Network) (request : Request)
    (w : World) :
  let path := pathname (url request) in
  (JsString.startsWith path PREFIX_ACCESS = false ->
   handleRequest network request w
   = (Normal (text_response 404 "404 Not Found"), w))
  /\ (JsString.startsWith path PREFIX_ACCESS = true ->
      JsString.startsWith (JsString.replace path PREFIX_ACCESS "") PREFIX_GH
      = false ->
      handleRequest network request w
      = (Normal (text_response 404 "404 Not Found"), w))
  /\ JsString.startsWith path (PREFIX_ACCESS ++ PREFIX_GH)
     = JsString.startsWith path PREFIX_ACCESS
       && JsString.startsWith (JsString.replace path PREFIX_ACCESS "")
            PREFIX_GH
  /\ handleRequest network request w
     = if JsString.startsWith path (PREFIX_ACCESS ++ PREFIX_GH)
       then handleGitHubRequest network
              (JsString.slice (String.length PREFIX_ACCESS) path) request w
       else (Normal (text_response 404 "404 Not Found"), w).
Proof.
  intros path. unfold handleRequest. fold path.
  repeat split.
  - intros H. rewrite H. reflexivity.
  - intros H1 H2. rewrite H1, H2. reflexivity.
  - apply gates_as_one_prefix.
  - rewrite gates_as_one_prefix.
    destruct (JsString.startsWith path PREFIX_ACCESS) eqn:H1; [|reflexivity].
    cbn [negb andb].
    rewrite (replace_prefix _ _ H1).
    destruct (JsString.startsWith
                (JsString.slice (String.length PREFIX_ACCESS) path) PREFIX_GH);
      reflexivity.
Qed.

(** The access test is a test of the text: [/3lwqkgh/x] passes it, and
    fails the second one. *)
Lemma gates_example :
  JsString.startsWith "/3lwqkgh/x" PREFIX_ACCESS = true
  /\ handleRequest network_up (request_for "/3lwqkgh/x") world0
     = (Normal (text_response 404 "404 Not Found"), world0)
  /\ handleRequest network_up (request_for "/elsewhere/gh/o/r@t/f") world0
     = (Normal (text_response 404 "404 Not Found"), world0).
Proof.
  split; [reflexivity|]. split.
  - apply (proj1 (proj2 (gates_reject_with_404 network_up
                           (request_for "/3lwqkgh/x") world0)));
      reflexivity.
  - apply (proj1 (gates_reject_with_404 network_up
                    (request_for "/elsewhere/gh/o/r@t/f") world0)).
    reflexivity.
Defined.

(** ** C7: no shape *)

(** C7.  A request that passes both gates and whose path, without the
    access prefix, matches none of the four expressions is answered 400
    with the usage guide as HTML, a text in which [Usage Guide] occurs,
    and the world is as before: nothing was fetched. *)
Theorem unmatched_path_gets_usage_guide (network : Network)
    (request : Request) (w : World) :
  let path := pathname (url request) in
  let rest := JsString.replace path PREFIX_ACCESS "" in
  JsString.startsWith path PREFIX_ACCESS = true ->
  JsString.startsWith rest PREFIX_GH = true ->
  exec release_re rest = None -> exec version_re rest = None ->
  exec blob_re rest = None -> exec raw_re rest = None ->
  handleRequest network request w
  = (Normal (mkResponse 400 [("Content-Type", "text/html")]
               (Some (Text generateUsageGuide))), w)
  /\ JsString.includes generateUsageGuide "Usage Guide" = true.
Proof.
  intros path rest H1 H2 Hr Hv Hb Hw. split.
  - unfold handleRequest. fold path. rewrite H1. cbn [negb]. fold rest.
    rewrite H2. rewrite (handle_none network rest request Hr Hv Hb Hw).
    reflexivity.
  - vm_compute. reflexivity.
Qed.

Lemma unmatched_path_example :
  handleRequest network_up (request_for "/3lwqk/gh/nginx/nginx") world0
  = (Normal (mkResponse 400 [("Content-Type", "text/html")]
               (Some (Text generateUsageGuide))), world0)
  /\ JsString.includes generateUsageGuide "Usage Guide" = true.
Proof.
  apply (unmatched_path_gets_usage_guide network_up
           (request_for "/3lwqk/gh/nginx/nginx") world0);
    vm_compute; reflexivity.
Defined.

(** ** C9: what the decision depends on *)

Section Trace.

Variable network : Network.

Lemma fetchWithCors_sent (u : string) (request : Request) (w : World) :
  sent (snd (fetchWithCors network u request w))
  = (sent w ++ [get_request u])%list.
Proof.
  rewrite fetchWithCors_eval.
  destruct (network (sent w) (get_request u)) as [|st h p]; [reflexivity|].
  destruct ((st <? 200) || (599 <? st))%Z; reflexivity.
Qed.

Lemma probe_then_relay_sent (user repo version filePath : option string)
    (request : Request) (w : World) :
  exists new,
    sent (snd (probe_then_relay network user repo version filePath request w))
    = (sent w ++ new)%list /\ plain_gets new.
Proof.
  unfold probe_then_relay.
  set (u := "https://github.com/" ++ interpolate user ++ "/"
            ++ interpolate repo ++ "/releases/download/"
            ++ interpolate version ++ "/" ++ interpolate filePath).
  unfold try_catch, bind at 1. unfold fetch at 1.
  fold (get_request u). fold (after_fetch w u).
  destruct (network (sent w) (get_request u)) as [|st h payload].
  - exists [get_request u]. split; [reflexivity|].
    constructor; [reflexivity | constructor].
  - destruct (negb (ok (mkResponse st h
                (if null_body_status st then None else Some (Stream payload))))).
    + exists [get_request u]. split; [reflexivity|].
      constructor; [reflexivity | constructor].
    + exists [get_request u; get_request u]. split.
      * pose proof (fetchWithCors_sent u request (after_fetch w u)) as S.
        destruct (fetchWithCors network u request (after_fetch w u))
          as [[r|e] w2]; simpl in S |- *; rewrite S; simpl;
          rewrite <- app_assoc; reflexivity.
      * constructor; [reflexivity|]. constructor; [reflexivity | constructor].
Qed.

Lemma handleGitHubRequest_sent (path : string) (request : Request)
    (w : World) :
  exists new,
    sent (snd (handleGitHubRequest network path request w))
    = (sent w ++ new)%list /\ plain_gets new.
Proof.
  assert (One : forall u,
    exists new,
      sent (snd (fetchWithCors network u request w)) = (sent w ++ new)%list
      /\ plain_gets new).
  { intros u. exists [get_request u]. split; [apply fetchWithCors_sent|].
    constructor; [reflexivity | constructor]. }
  destruct (exec release_re path) as [m|] eqn:Hr.
  { rewrite (handle_release network _ _ _ Hr). apply probe_then_relay_sent. }
  destruct (exec version_re path) as [m|] eqn:Hv.
  { rewrite (handle_version network _ _ _ Hr Hv). apply One. }
  destruct (exec blob_re path) as [m|] eqn:Hb.
  { rewrite (handle_blob network _ _ _ Hr Hv Hb). apply One. }
  destruct (exec raw_re path) as [m|] eqn:Hw.
  { rewrite (handle_raw network _ _ _ Hr Hv Hb Hw). apply One. }
  rewrite (handle_none network _ _ Hr Hv Hb Hw).
  exists []. split; [simpl; rewrite app_nil_r; reflexivity | constructor].
Qed.

Lemma handleRequest_sent (request : Request) (w : World) :
  exists new,
    sent (snd (handleRequest network request w)) = (sent w ++ new)%list
    /\ plain_gets new.
Proof.
  assert (Zero : exists new, sent w = (sent w ++ new)%list /\ plain_gets new).
  { exists []. split; [rewrite app_nil_r; reflexivity | constructor]. }
  unfold handleRequest.
  destruct (JsString.startsWith (pathname (url request)) PREFIX_ACCESS);
    cbn [negb]; [|exact Zero].
  destruct (JsString.startsWith
              (JsString.replace (pathname (url request)) PREFIX_ACCESS "")
              PREFIX_GH); [|exact Zero].
  apply handleGitHubRequest_sent.
Qed.

End Trace.

(** C9.  Two requests with the same pathname are handled alike in every
    world and on every network: the same response or exception, the same
    fetches, whatever their methods, headers, bodies and queries.  What a
    request makes the worker fetch are GETs of the URLs it built, without
    headers or body. *)
Theorem decision_depends_on_pathname_only (network : Network)
    (request1 request2 : Request) (w : World) :
  pathname (url request1) = pathname (url request2) ->
  handleRequest network request1 w = handleRequest network request2 w
  /\ exists new,
       sent (snd (handleRequest network request1 w)) = (sent w ++ new)%list
       /\ plain_gets new.
Proof.
  intros H. split; [|apply handleRequest_sent].
  unfold handleRequest. rewrite H. reflexivity.
Qed.

(** A POST with a body, headers and a query is handled as the plain GET of
    the same path. *)
Lemma decision_example :
  handleRequest network_up
    (mkRequest "POST"
       (mkUrl "https://dl09.net" "/3lwqk/gh/nginx/nginx/raw/master/CHANGELOG"
          "?token=1" "#top")
       [("Authorization", "Bearer secret")] (Some (Text "body")))
    world0
  = handleRequest network_up
      (request_for "/3lwqk/gh/nginx/nginx/raw/master/CHANGELOG") world0
  /\ exists new,
       sent (snd (handleRequest network_up
                    (mkRequest "POST"
                       (mkUrl "https://dl09.net"
                          "/3lwqk/gh/nginx/nginx/raw/master/CHANGELOG"
                          "?token=1" "#top")
                       [("Authorization", "Bearer secret")]
                       (Some (Text "body")))
                    world0))
       = (sent world0 ++ new)%list
       /\ plain_gets new.
Proof.
  apply (decision_depends_on_pathname_only network_up
           (mkRequest "POST"
              (mkUrl "https://dl09.net"
                 "/3lwqk/gh/nginx/nginx/raw/master/CHANGELOG" "?token=1" "#top")
              [("Authorization", "Bearer secret")] (Some (Text "body")))
           (request_for "/3lwqk/gh/nginx/nginx/raw/master/CHANGELOG") world0).
  reflexivity.
Defined.

(** ** C1: exceptions *)


(** C1, on the code: a network failure during the one fetch of a
    short-version request is not caught.  [handleRequest] ends in the
    exception, not in a 500 response; the same holds for the blob and raw
    shapes, whose fetch is outside every [try] too. *)
Theorem network_failure_escapes_direct_shapes :
  handleRequest network_down
    (request_for "/3lwqk/gh/jquery/jquery@3.6.4/dist/jquery.min.js") world0
  = (Throw NetworkFailure,
     mkWorld
       [get_request
          "https://github.com/jquery/jquery/raw/refs/tags/3.6.4/dist/jquery.min.js"]
       [])
  /\ handleRequest network_down
       (request_for "/3lwqk/gh/nginx/nginx/blob/master/CHANGELOG") world0
     = (Throw NetworkFailure,
        mkWorld
          [get_request
             "https://raw.githubusercontent.com/nginx/nginx/master/CHANGELOG"]
          [])
  /\ handleRequest network_down
       (request_for "/3lwqk/gh/nginx/nginx/raw/master/CHANGELOG") world0
     = (Throw NetworkFailure,
        mkWorld
          [get_request
             "https://raw.githubusercontent.com/nginx/nginx/master/CHANGELOG"]
          [])
  /\ handleRequest network_down
       (request_for "/3lwqk/gh/torvalds/linux/releases/download/v6.1/patch.gz")
       world0
     = (Normal (text_response 500 "Internal Server Error"),
        mkWorld
          [get_request
             "https://github.com/torvalds/linux/releases/download/v6.1/patch.gz"]
          []).
Proof. repeat split; vm_compute; reflexivity. Qed.

(** ** C2: the four expressions on one path *)

(** C2 as stated fails: this path matches the release-download expression
    and the short-version expression, with different captures. *)
Lemma release_and_short_version_overlap :
  exec release_re "/gh/o/r@t/releases/download/x/y"
  = Some ["/gh/o/r@t/releases/download/x/y"; "o"; "r@t"; "x"; "y"]
  /\ exec version_re "/gh/o/r@t/releases/download/x/y"
     = Some ["/gh/o/r@t/releases/download/x/y"; "o"; "r"; "t";
             "releases/download/x/y"].
Proof. split; vm_compute; reflexivity. Qed.

(** C2, amended.  On every path at most one of the release-download, blob
    and raw expressions matches.  The short-version expression can match
    beside one of them, and only where the repository that the other one
    captures has an [@] between its first and last character.  The order
    of the conditions then decides: a match of the release-download
    expression is handled as a release download whatever else matches, and
    without one a match of the short-version expression is handled as a
    short version whatever else matches. *)
Theorem slash_shapes_disjoint_short_version_needs_at (network : Network)
    (request : Request) (path : string) :
  (exec release_re path = None \/ exec blob_re path = None)
  /\ (exec release_re path = None \/ exec raw_re path = None)
  /\ (exec blob_re path = None \/ exec raw_re path = None)
  /\ (forall m,
        exec version_re path <> None ->
        exec release_re path = Some m \/ exec blob_re path = Some m
        \/ exec raw_re path = Some m ->
        exists repo, nth_error m 2 = Some repo /\ inner_at repo = true)
  /\ (forall m,
        exec release_re path = Some m ->
        handleGitHubRequest network path request
        = probe_then_relay network (nth_error m 1) (nth_error m 2)
            (nth_error m 3) (nth_error m 4) request)
  /\ (forall m,
        exec release_re path = None -> exec version_re path = Some m ->
        handleGitHubRequest network path request
        = fetchWithCors network
            ("https://github.com/" ++ interpolate (nth_error m 1) ++ "/"
             ++ interpolate (nth_error m 2) ++ "/raw/refs/tags/"
             ++ interpolate (nth_error m 3) ++ "/"
             ++ interpolate (nth_error m 4)) request).
Proof.
  split; [apply release_or_blob|].
  split; [apply release_or_raw|].
  split; [apply blob_or_raw|].
  split; [|split].
  - intros m Hv [H|[H|H]].
    + exact (version_beside_slash "releases/download/" path m Hv H).
    + exact (version_beside_slash "blob/" path m Hv H).
    + exact (version_beside_slash "raw/" path m Hv H).
  - intros m H. apply handle_release, H.
  - intros m H1 H2. apply handle_version; assumption.
Qed.

(** An [@] before the last character: the last such one splits the text
    into a part before it and a tag after it. *)
Lemma at_before_last_last (s : string) :
  at_before_last s = true ->
  exists a t, s = a ++ String "@" t /\ t <> "" /\ at_before_last t = false.
Proof.
  induction s as [|c s IH]; simpl; [discriminate|].
  destruct (at_before_last s) eqn:Hs.
  - intros _. destruct (IH eq_refl) as (a & t & -> & Ht & Hat).
    exists (String c a), t. auto.
  - rewrite orb_false_r. intros H. apply andb_true_iff in H as [Hc Hn].
    apply Ascii.eqb_eq in Hc. subst c.
    apply negb_true_iff, String.eqb_neq in Hn.
    exists "", s. auto.
Qed.

(** The short-version expression matches a path [/gh/<owner>/<seg>/<rest>]
    exactly when the second segment has an [@] between its first and last
    character. *)
Lemma short_version_matches_iff_inner_at (o seg x : string) :
  is_segment o = true -> is_segment seg = true -> single_line x = true ->
  exec version_re ("/gh/" ++ o ++ "/" ++ seg ++ "/" ++ x) <> None
  <-> inner_at seg = true.
Proof.
  intros Ho Hseg Hx. split.
  - intros H. destruct (inner_at seg) eqn:Hat; [reflexivity|].
    rewrite (version_no_match o seg x Ho Hseg Hat) in H. congruence.
  - intros Hat. destruct seg as [|c s]; [discriminate|]. simpl in Hat.
    destruct (at_before_last_last s Hat) as (a & t & -> & Ht & Hlast).
    apply is_segment_all in Hseg.
    change (String c (a ++ String "@" t)) with (String c a ++ String "@" t)
      in Hseg |- *.
    rewrite all_append in Hseg. apply andb_true_iff in Hseg as [Hr Htt].
    simpl in Htt.
    assert (Sr : is_segment (String c a) = true).
    { apply is_segment_spec. split; [discriminate | exact Hr]. }
    assert (St : is_segment t = true).
    { apply is_segment_spec. split; assumption. }
    pose proof (version_matches o (String c a) t x Ho Sr St Hlast Hx) as M.
    unfold version_path in M.
    rewrite append_assoc.
    change ((String "@" t) ++ "/" ++ x) with ("@" ++ t ++ "/" ++ x).
    rewrite M. discriminate.
Qed.

Lemma short_version_matches_iff_example :
  exec version_re ("/gh/" ++ "o" ++ "/" ++ "a@b" ++ "/" ++ "blob/main/f")
  <> None
  <-> inner_at "a@b" = true.
Proof.
  apply (short_version_matches_iff_inner_at "o" "a@b" "blob/main/f");
    reflexivity.
Defined.

(** ** C4: the short-version shape *)

(** C4 as stated fails: a short-version path whose file starts like a
    release download is handled as a release download of the repository
    [r@t] (two fetches, the first a probe), and a tag with an [@] inside is
    split at its last [@]. *)
Lemma short_version_not_always_direct :
  is_segment "o" = true /\ is_segment "r" = true /\ is_segment "t" = true
  /\ is_segment "1@2" = true
  /\ sent (snd (handleGitHubRequest network_up
                  (version_path "o" "r" "t" "releases/download/x/y")
                  (request_for "/3lwqk/gh/o/r@t/releases/download/x/y")
                  world0))
     = [get_request "https://github.com/o/r@t/releases/download/x/y";
        get_request "https://github.com/o/r@t/releases/download/x/y"]
  /\ sent (snd (handleGitHubRequest network_up
                  (version_path "o" "r" "1@2" "f")
                  (request_for "/3lwqk/gh/o/r@1@2/f") world0))
     = [get_request "https://github.com/o/r@1/raw/refs/tags/2/f"].
Proof. repeat split; vm_compute; reflexivity. Qed.

(** C4, amended.  For every path [/gh/<owner>/<repo>@<tag>/<file>] whose
    tag has no [@] before its last character and which the
    release-download expression does not match, the upstream URL is
    [https://github.com/<owner>/<repo>/raw/refs/tags/<tag>/<file>] and the
    request is forwarded by [fetchWithCors]: one fetch, no probe. *)
Theorem short_version_forwards_directly (network : Network)
    (request : Request) (w : World) (owner repo tag file : string) :
  is_segment owner = true -> is_segment repo = true ->
  is_segment tag = true -> at_before_last tag = false ->
  single_line file = true ->
  exec release_re (version_path owner repo tag file) = None ->
  let u := "https://github.com/" ++ owner ++ "/" ++ repo ++ "/raw/refs/tags/"
           ++ tag ++ "/" ++ file in
  handleGitHubRequest network (version_path owner repo tag file) request w
  = fetchWithCors network u request w
  /\ sent (snd (handleGitHubRequest network
                  (version_path owner repo tag file) request w))
     = (sent w ++ [get_request u])%list.
Proof.
  intros Ho Hr Ht Hat Hf Hrel u.
  assert (E : handleGitHubRequest network (version_path owner repo tag file)
                request
              = fetchWithCors network u request).
  { rewrite (handle_version network _ request _ Hrel
               (version_matches _ _ _ _ Ho Hr Ht Hat Hf)).
    reflexivity. }
  rewrite E. split; [reflexivity | apply fetchWithCors_sent].
Qed.

(** The spec's example. *)
Lemma short_version_example :
  handleGitHubRequest network_up
    (version_path "jquery" "jquery" "3.6.4" "dist/jquery.min.js")
    (request_for "/3lwqk/gh/jquery/jquery@3.6.4/dist/jquery.min.js") world0
  = fetchWithCors network_up
      "https://github.com/jquery/jquery/raw/refs/tags/3.6.4/dist/jquery.min.js"
      (request_for "/3lwqk/gh/jquery/jquery@3.6.4/dist/jquery.min.js") world0
  /\ sent (snd (handleGitHubRequest network_up
                  (version_path "jquery" "jquery" "3.6.4" "dist/jquery.min.js")
                  (request_for
                     "/3lwqk/gh/jquery/jquery@3.6.4/dist/jquery.min.js")
                  world0))
     = (sent world0
        ++ [get_request
              "https://github.com/jquery/jquery/raw/refs/tags/3.6.4/dist/jquery.min.js"])%list.
Proof.
  apply (short_version_forwards_directly network_up
           (request_for "/3lwqk/gh/jquery/jquery@3.6.4/dist/jquery.min.js")
           world0 "jquery" "jquery" "3.6.4" "dist/jquery.min.js");
    vm_compute; reflexivity.
Defined.

(** ** C6: the blob and raw shapes *)

Section DirectShapes.

Variable network : Network.

Lemma blob_forwards (request : Request) (o r t f : string) :
  is_segment o = true -> is_segment r = true -> is_segment t = true ->
  inner_at r = false -> single_line f = true ->
  handleGitHubRequest network (blob_path o r t f) request
  = fetchWithCors network
      ("https://raw.githubusercontent.com/" ++ o ++ "/" ++ r ++ "/" ++ t
       ++ "/" ++ f) request.
Proof.
  intros Ho Hr Ht Hat Hf.
  pose proof (blob_matches o r t f Ho Hr Ht Hf) as Hb.
  assert (Hrel : exec release_re (blob_path o r t f) = None).
  { destruct (release_or_blob (blob_path o r t f)) as [H|H];
      [exact H | congruence]. }
  assert (Hv : exec version_re (blob_path o r t f) = None).
  { exact (version_no_match o r ("blob/" ++ t ++ "/" ++ f) Ho Hr Hat). }
  rewrite (handle_blob network _ request _ Hrel Hv Hb). reflexivity.
Qed.

Lemma raw_forwards (request : Request) (o r t f : string) :
  is_segment o = true -> is_segment r = true -> is_segment t = true ->
  inner_at r = false -> single_line f = true ->
  handleGitHubRequest network (raw_path o r t f) request
  = fetchWithCors network
      ("https://raw.githubusercontent.com/" ++ o ++ "/" ++ r ++ "/" ++ t
       ++ "/" ++ f) request.
Proof.
  intros Ho Hr Ht Hat Hf.
  pose proof (raw_matches o r t f Ho Hr Ht Hf) as Hw.
  assert (Hrel : exec release_re (raw_path o r t f) = None).
  { destruct (release_or_raw (raw_path o r t f)) as [H|H];
      [exact H | congruence]. }
  assert (Hb : exec blob_re (raw_path o r t f) = None).
  { destruct (blob_or_raw (raw_path o r t f)) as [H|H];
      [exact H | congruence]. }
  assert (Hv : exec version_re (raw_path o r t f) = None).
  { exact (version_no_match o r ("raw/" ++ t ++ "/" ++ f) Ho Hr Hat). }
  rewrite (handle_raw network _ request _ Hrel Hv Hb Hw). reflexivity.
Qed.

End DirectShapes.

(** C6 as stated fails: with an [@] inside the repository the
    short-version expression matches first, and the blob path and the raw
    path of the same owner, repository, ref and file are fetched from two
    URLs, neither on raw.githubusercontent.com. *)
Lemma blob_and_raw_differ_for_at_in_repo :
  is_segment "o" = true /\ is_segment "a@b" = true
  /\ is_segment "main" = true
  /\ sent (snd (handleGitHubRequest network_up
                  (blob_path "o" "a@b" "main" "f")
                  (request_for "/3lwqk/gh/o/a@b/blob/main/f") world0))
     = [get_request "https://github.com/o/a/raw/refs/tags/b/blob/main/f"]
  /\ sent (snd (handleGitHubRequest network_up
                  (raw_path "o" "a@b" "main" "f")
                  (request_for "/3lwqk/gh/o/a@b/raw/main/f") world0))
     = [get_request "https://github.com/o/a/raw/refs/tags/b/raw/main/f"].
Proof. repeat split; vm_compute; reflexivity. Qed.

(** C6, amended.  For every owner, repository without an [@] between its
    first and last character, ref and file, the blob path and the raw path
    are handled alike: each is forwarded by [fetchWithCors] to
    [https://raw.githubusercontent.com/<owner>/<repo>/<ref>/<file>], one
    fetch, no probe. *)
Theorem blob_and_raw_forward_alike (network : Network) (request : Request)
    (w : World) (owner repo ref file : string) :
  is_segment owner = true -> is_segment repo = true ->
  is_segment ref = true -> inner_at repo = false ->
  single_line file = true ->
  let u := "https://raw.githubusercontent.com/" ++ owner ++ "/" ++ repo
           ++ "/" ++ ref ++ "/" ++ file in
  handleGitHubRequest network (blob_path owner repo ref file) request w
  = fetchWithCors network u request w
  /\ handleGitHubRequest network (raw_path owner repo ref file) request w
     = fetchWithCors network u request w
  /\ sent (snd (fetchWithCors network u request w))
     = (sent w ++ [get_request u])%list.
Proof.
  intros Ho Hr Ht Hat Hf u.
  rewrite (blob_forwards network request _ _ _ _ Ho Hr Ht Hat Hf).
  rewrite (raw_forwards network request _ _ _ _ Ho Hr Ht Hat Hf).
  repeat split. apply fetchWithCors_sent.
Qed.

(** The spec's examples. *)
Lemma blob_and_raw_example :
  handleGitHubRequest network_up (blob_path "nginx" "nginx" "master" "CHANGELOG")
    (request_for "/3lwqk/gh/nginx/nginx/blob/master/CHANGELOG") world0
  = fetchWithCors network_up
      "https://raw.githubusercontent.com/nginx/nginx/master/CHANGELOG"
      (request_for "/3lwqk/gh/nginx/nginx/blob/master/CHANGELOG") world0
  /\ handleGitHubRequest network_up
       (raw_path "nginx" "nginx" "master" "CHANGELOG")
       (request_for "/3lwqk/gh/nginx/nginx/blob/master/CHANGELOG") world0
     = fetchWithCors network_up
         "https://raw.githubusercontent.com/nginx/nginx/master/CHANGELOG"
         (request_for "/3lwqk/gh/nginx/nginx/blob/master/CHANGELOG") world0
  /\ sent (snd (fetchWithCors network_up
                  "https://raw.githubusercontent.com/nginx/nginx/master/CHANGELOG"
                  (request_for "/3lwqk/gh/nginx/nginx/blob/master/CHANGELOG")
                  world0))
     = (sent world0
        ++ [get_request
              "https://raw.githubusercontent.com/nginx/nginx/master/CHANGELOG"])%list.
Proof.
  apply (blob_and_raw_forward_alike network_up
           (request_for "/3lwqk/gh/nginx/nginx/blob/master/CHANGELOG") world0
           "nginx" "nginx" "master" "CHANGELOG"); reflexivity.
Defined.

(** ** C10: segments outside the validator's class *)

(** C10 as stated fails for [@], a character other than the slash and
    outside the validator's class: as the tag of a short-version path,
    [x@y] is not the tag that reaches the upstream URL, where [x-y] is; in
    the repository of a raw path, [r@d] makes the path a short-version
    one, where [r-d] leaves it raw. *)
Lemma at_sign_changes_routing :
  isValidGitHubParameter "x@y" = false /\ is_segment "x@y" = true
  /\ sent (snd (handleGitHubRequest network_up
                  (version_path "o" "r" "x@y" "f")
                  (request_for "/3lwqk/gh/o/r@x@y/f") world0))
     = [get_request "https://github.com/o/r@x/raw/refs/tags/y/f"]
  /\ sent (snd (handleGitHubRequest network_up
                  (version_path "o" "r" "x-y" "f")
                  (request_for "/3lwqk/gh/o/r@x-y/f") world0))
     = [get_request "https://github.com/o/r/raw/refs/tags/x-y/f"]
  /\ isValidGitHubParameter "r@d" = false /\ is_segment "r@d" = true
  /\ sent (snd (handleGitHubRequest network_up
                  (raw_path "o" "r@d" "main" "f")
                  (request_for "/3lwqk/gh/o/r@d/raw/main/f") world0))
     = [get_request "https://github.com/o/r/raw/refs/tags/d/raw/main/f"]
  /\ sent (snd (handleGitHubRequest network_up
                  (raw_path "o" "r-d" "main" "f")
                  (request_for "/3lwqk/gh/o/r-d/raw/main/f") world0))
     = [get_request "https://raw.githubusercontent.com/o/r-d/main/f"].
Proof. repeat split; vm_compute; reflexivity. Qed.

(** C10, amended.  Routing never asks [isValidGitHubParameter]: for every
    owner, repository and ref that are non-empty and without a slash,
    inside the validator's class or not, a path of one of the four shapes
    is matched and forwarded by its shape as it is for well-formed
    segments: a release-download path by probe and relay; a short-version
    path directly, or as the release download that it also is; a blob or
    raw path directly.  Of the characters outside the class only [@] is
    excepted: the short-version tag may hold it as its last character
    only, the repository of a blob or raw path as its first or last only;
    a release-download path may hold it anywhere. *)
Theorem routing_is_permissive_but_for_at (network : Network)
    (request : Request) (w : World) (owner repo ref file : string) :
  is_segment owner = true -> is_segment repo = true ->
  is_segment ref = true -> single_line file = true ->
  handleGitHubRequest network (release_path owner repo ref file) request w
  = probe_then_relay network (Some owner) (Some repo) (Some ref) (Some file)
      request w
  /\ (at_before_last ref = false ->
      handleGitHubRequest network (version_path owner repo ref file) request w
      = match exec release_re (version_path owner repo ref file) with
        | Some m =>
            probe_then_relay network (nth_error m 1) (nth_error m 2)
              (nth_error m 3) (nth_error m 4) request w
        | None =>
            fetchWithCors network
              ("https://github.com/" ++ owner ++ "/" ++ repo
               ++ "/raw/refs/tags/" ++ ref ++ "/" ++ file) request w
        end)
  /\ (inner_at repo = false ->
      handleGitHubRequest network (blob_path owner repo ref file) request w
      = fetchWithCors network
          ("https://raw.githubusercontent.com/" ++ owner ++ "/" ++ repo
           ++ "/" ++ ref ++ "/" ++ file) request w
      /\ handleGitHubRequest network (raw_path owner repo ref file) request w
         = fetchWithCors network
             ("https://raw.githubusercontent.com/" ++ owner ++ "/" ++ repo
              ++ "/" ++ ref ++ "/" ++ file) request w).
Proof.
  intros Ho Hr Ht Hf. split; [|split].
  - rewrite (handle_release network _ request _
               (release_matches _ _ _ _ Ho Hr Ht Hf)).
    reflexivity.
  - intros Hat.
    destruct (exec release_re (version_path owner repo ref file))
      as [m|] eqn:Hrel.
    + rewrite (handle_release network _ request _ Hrel). reflexivity.
    + rewrite (handle_version network _ request _ Hrel
                 (version_matches _ _ _ _ Ho Hr Ht Hat Hf)).
      reflexivity.
  - intros Hat.
    rewrite (blob_forwards network request _ _ _ _ Ho Hr Ht Hat Hf).
    rewrite (raw_forwards network request _ _ _ _ Ho Hr Ht Hat Hf).
    split; reflexivity.
Qed.

(** Segments that the validator refuses, routed by their shapes. *)
Lemma routing_is_permissive_example :
  isValidGitHubParameter "o+1" = false
  /\ isValidGitHubParameter "r~2" = false
  /\ isValidGitHubParameter "v!3" = false
  /\ handleGitHubRequest network_up (release_path "o+1" "r~2" "v!3" "f")
       (request_for "/") world0
     = probe_then_relay network_up (Some "o+1") (Some "r~2") (Some "v!3")
         (Some "f") (request_for "/") world0
  /\ handleGitHubRequest network_up (version_path "o+1" "r~2" "v!3" "f")
       (request_for "/") world0
     = fetchWithCors network_up "https://github.com/o+1/r~2/raw/refs/tags/v!3/f"
         (request_for "/") world0
  /\ handleGitHubRequest network_up (blob_path "o+1" "r~2" "v!3" "f")
       (request_for "/") world0
     = fetchWithCors network_up
         "https://raw.githubusercontent.com/o+1/r~2/v!3/f"
         (request_for "/") world0
  /\ handleGitHubRequest network_up (raw_path "o+1" "r~2" "v!3" "f")
       (request_for "/") world0
     = fetchWithCors network_up
         "https://raw.githubusercontent.com/o+1/r~2/v!3/f"
         (request_for "/") world0.
Proof.
  destruct (routing_is_permissive_but_for_at network_up (request_for "/")
              world0 "o+1" "r~2" "v!3" "f" eq_refl eq_refl eq_refl eq_refl)
    as (H1 & H2 & H3).
  destruct (H3 eq_refl) as (H4 & H5).
  split; [reflexivity|]. split; [reflexivity|]. split; [reflexivity|].
  split; [exact H1|].
  split; [exact (H2 eq_refl)|].
  split; [exact H4 | exact H5].
Defined.

(** * Further properties of the code *)

(** ** The validator (src/index.js, lines 114-116) *)

Lemma scan_bol_start (ns : list Node) (s : string) :
  scan (Bol :: ns) 0 s = option_map (pair 0) (run ns 0 s).
Proof.
  destruct s as [|c s]; cbn [scan].
  - change (run (Bol :: ns) 0 "") with (run ns 0 "").
    destruct (run ns 0 ""); reflexivity.
  - change (run (Bol :: ns) 0 (String c s)) with (run ns 0 (String c s)).
    destruct (run ns 0 (String c s)); [reflexivity|].
    apply scan_bol_later. discriminate.
Qed.

Lemma test_parameter_re (s : string) :
  test parameter_re s = true
  <-> s <> "" /\ JsString.all word_dot_dash s = true.
Proof.
  unfold test, parameter_re.
  pose proof (scan_bol_start [Repeat false word_dot_dash 1; Eol] s) as S0.
  rewrite S0. split.
  - destruct (run [Repeat false word_dot_dash 1; Eol] 0 s) as [[e caps]|] eqn:R;
      [intros _ | discriminate].
    apply run_repeat_inv in R as (taken & rest & caps' & -> & Ha & Hm & Hr & _).
    simpl in Hr. destruct rest; [|discriminate].
    rewrite append_nil_r. split; [|exact Ha].
    destruct taken; simpl in Hm; [lia | discriminate].
  - intros [Hne Ha]. rewrite run_repeat_eq.
    assert (G : greedy word_dot_dash 1 (run [Eol]) 0 (s ++ "" ++ "")
                = Some (s, (0 + String.length s, []))).
    { apply (greedy_split word_dot_dash (run [Eol]) s "" "").
      - exact Ha.
      - reflexivity.
      - exact I.
      - destruct s; simpl; [congruence | lia].
      - reflexivity.
      - intros a b E Hne'. destruct a; [congruence | discriminate]. }
    change (s ++ "" ++ "") with (s ++ "") in G.
    rewrite append_nil_r in G. rewrite G. reflexivity.
Qed.

Lemma isValidGitHubParameter_spec (param : string) :
  isValidGitHubParameter param = true
  <-> param <> "" /\ JsString.all word_dot_dash param = true.
Proof.
  unfold isValidGitHubParameter.
  rewrite andb_true_iff, negb_true_iff, String.eqb_neq, test_parameter_re.
  tauto.
Qed.

(** The validator accepts exactly the non-empty texts over letters,
    digits, [_], [.] and [-]: the empty text is refused by the first test,
    and the expression, tried at every position, matches the whole text or
    nothing. *)
Theorem validator_accepts_exactly_the_class (param : string) :
  isValidGitHubParameter param = true
  <-> param <> "" /\ JsString.all word_dot_dash param = true.
Proof. exact (isValidGitHubParameter_spec param). Qed.

Lemma word_dot_dash_plain (c : ascii) :
  word_dot_dash c = true ->
  not_slash c = true /\ negb (Ascii.eqb c "@") = true.
Proof.
  destruct c as [b0 b1 b2 b3 b4 b5 b6 b7].
  destruct b0, b1, b2, b3, b4, b5, b6, b7; vm_compute; intros H;
    try discriminate H; split; reflexivity.
Qed.

Lemma all_implies (p q : ascii -> bool) (s : string) :
  (forall c, p c = true -> q c = true) ->
  JsString.all p s = true -> JsString.all q s = true.
Proof.
  intros Hpq. induction s as [|c s IH]; simpl; [reflexivity|].
  intros H. apply andb_true_iff in H as [Hc Hs].
  rewrite (Hpq _ Hc), (IH Hs). reflexivity.
Qed.

Lemma no_at_at_before_last (s : string) :
  no_at s = true -> at_before_last s = false.
Proof.
  unfold no_at. induction s as [|c s IH]; simpl; [reflexivity|].
  intros H. apply andb_true_iff in H as [Hc Hs].
  apply negb_true_iff in Hc. rewrite Hc, (IH Hs). reflexivity.
Qed.

Lemma no_at_inner_at (s : string) : no_at s = true -> inner_at s = false.
Proof.
  destruct s as [|c s]; [reflexivity|]. unfold no_at. simpl.
  intros H. apply andb_true_iff in H as [_ Hs].
  apply no_at_at_before_last, Hs.
Qed.

Lemma valid_is_plain_segment (s : string) :
  isValidGitHubParameter s = true -> is_segment s = true /\ no_at s = true.
Proof.
  intros H. apply isValidGitHubParameter_spec in H as [Hne Ha].
  split.
  - apply is_segment_spec. split; [exact Hne|].
    apply (all_implies word_dot_dash); [|exact Ha].
    intros c Hc. apply word_dot_dash_plain, Hc.
  - unfold no_at. apply (all_implies word_dot_dash); [|exact Ha].
    intros c Hc. apply word_dot_dash_plain, Hc.
Qed.

(** With an owner, a repository and a ref that the validator accepts, a
    path of each shape is routed by its template: a release download by
    probe and relay, a blob or raw path to raw.githubusercontent.com, and
    a short-version path to its tag unless its file makes it a release
    download as well. *)
Theorem validated_segments_route_by_template (network : Network)
    (request : Request) (w : World) (owner repo ref file : string) :
  isValidGitHubParameter owner = true ->
  isValidGitHubParameter repo = true ->
  isValidGitHubParameter ref = true -> single_line file = true ->
  handleGitHubRequest network (release_path owner repo ref file) request w
  = probe_then_relay network (Some owner) (Some repo) (Some ref) (Some file)
      request w
  /\ handleGitHubRequest network (version_path owner repo ref file) request w
     = match exec release_re (version_path owner repo ref file) with
       | Some m =>
           probe_then_relay network (nth_error m 1) (nth_error m 2)
             (nth_error m 3) (nth_error m 4) request w
       | None =>
           fetchWithCors network
             ("https://github.com/" ++ owner ++ "/" ++ repo
              ++ "/raw/refs/tags/" ++ ref ++ "/" ++ file) request w
       end
  /\ handleGitHubRequest network (blob_path owner repo ref file) request w
     = fetchWithCors network
         ("https://raw.githubusercontent.com/" ++ owner ++ "/" ++ repo
          ++ "/" ++ ref ++ "/" ++ file) request w
  /\ handleGitHubRequest network (raw_path owner repo ref file) request w
     = fetchWithCors network
         ("https://raw.githubusercontent.com/" ++ owner ++ "/" ++ repo
          ++ "/" ++ ref ++ "/" ++ file) request w.
Proof.
  intros Vo Vr Vt Hf.
  apply valid_is_plain_segment in Vo as [Ho _].
  apply valid_is_plain_segment in Vr as [Hr Ar].
  apply valid_is_plain_segment in Vt as [Ht At].
  apply no_at_inner_at in Ar. apply no_at_at_before_last in At.
  split; [|split; [|split]].
  - rewrite (handle_release network _ request _
               (release_matches _ _ _ _ Ho Hr Ht Hf)).
    reflexivity.
  - destruct (exec release_re (version_path owner repo ref file))
      as [m|] eqn:Hrel.
    + rewrite (handle_release network _ request _ Hrel). reflexivity.
    + rewrite (handle_version network _ request _ Hrel
                 (version_matches _ _ _ _ Ho Hr Ht At Hf)).
      reflexivity.
  - rewrite (blob_forwards network request _ _ _ _ Ho Hr Ht Ar Hf).
    reflexivity.
  - rewrite (raw_forwards network request _ _ _ _ Ho Hr Ht Ar Hf).
    reflexivity.
Qed.

Lemma validated_segments_example :
  handleGitHubRequest network_up
    (release_path "containerd" "containerd" "v1.6.4" "cri.tar.gz")
    (request_for "/") world0
  = probe_then_relay network_up (Some "containerd") (Some "containerd")
      (Some "v1.6.4") (Some "cri.tar.gz") (request_for "/") world0
  /\ handleGitHubRequest network_up
       (version_path "containerd" "containerd" "v1.6.4" "cri.tar.gz")
       (request_for "/") world0
     = match
         exec release_re
           (version_path "containerd" "containerd" "v1.6.4" "cri.tar.gz")
       with
       | Some m =>
           probe_then_relay network_up (nth_error m 1) (nth_error m 2)
             (nth_error m 3) (nth_error m 4) (request_for "/") world0
       | None =>
           fetchWithCors network_up
             ("https://github.com/" ++ "containerd" ++ "/" ++ "containerd"
              ++ "/raw/refs/tags/" ++ "v1.6.4" ++ "/" ++ "cri.tar.gz")
             (request_for "/") world0
       end
  /\ handleGitHubRequest network_up
       (blob_path "containerd" "containerd" "v1.6.4" "cri.tar.gz")
       (request_for "/") world0
     = fetchWithCors network_up
         ("https://raw.githubusercontent.com/" ++ "containerd" ++ "/"
          ++ "containerd" ++ "/" ++ "v1.6.4" ++ "/" ++ "cri.tar.gz")
         (request_for "/") world0
  /\ handleGitHubRequest network_up
       (raw_path "containerd" "containerd" "v1.6.4" "cri.tar.gz")
       (request_for "/") world0
     = fetchWithCors network_up
         ("https://raw.githubusercontent.com/" ++ "containerd" ++ "/"
          ++ "containerd" ++ "/" ++ "v1.6.4" ++ "/" ++ "cri.tar.gz")
         (request_for "/") world0.
Proof.
  apply (validated_segments_route_by_template network_up (request_for "/")
           world0 "containerd" "containerd" "v1.6.4" "cri.tar.gz");
    reflexivity.
Defined.

(** ** Every outcome of a request *)

Section Outcomes.

Variable network : Network.

(** What [fetchWithCors] ends in, and the one fetch it sends. *)
Lemma fetchWithCors_outcome (u : string) (request : Request) (w : World) :
  (exists st h payload,
     (200 <= st <= 599)%Z
     /\ fetchWithCors network u request w
        = (Normal (relayed st h payload), after_fetch w u))
  \/ fetchWithCors network u request w
     = (Throw NetworkFailure, after_fetch w u)
  \/ fetchWithCors network u request w = (Throw RangeError, after_fetch w u).
Proof.
  rewrite fetchWithCors_eval.
  destruct (network (sent w) (get_request u)) as [|st h payload]; [auto|].
  destruct ((st <? 200) || (599 <? st))%Z eqn:R; [auto|].
  left. exists st, h, payload. split; [|reflexivity].
  apply orb_false_iff in R as [R1 R2].
  apply Z.ltb_ge in R1. apply Z.ltb_ge in R2. lia.
Qed.

(** What the release branch ends in, and the fetches it sends. *)
Lemma probe_then_relay_outcome (user repo version filePath : option string)
    (request : Request) (w : World) :
  let u := "https://github.com/" ++ interpolate user ++ "/"
           ++ interpolate repo ++ "/releases/download/"
           ++ interpolate version ++ "/" ++ interpolate filePath in
  exists r w' new,
    probe_then_relay network user repo version filePath request w
    = (Normal r, w')
    /\ (r = text_response 404 "File not found"
        \/ r = text_response 500 "Internal Server Error"
        \/ exists st h payload,
             (200 <= st <= 599)%Z /\ r = relayed st h payload)
    /\ sent w' = (sent w ++ new)%list
    /\ (new = [get_request u] \/ new = [get_request u; get_request u]).
Proof.
  intros u. unfold probe_then_relay. fold u.
  unfold try_catch, bind at 1. unfold fetch at 1.
  fold (get_request u). fold (after_fetch w u).
  destruct (network (sent w) (get_request u)) as [|st h payload].
  - exists (text_response 500 "Internal Server Error"), (after_fetch w u),
      [get_request u]. auto 6.
  - destruct (negb (ok (mkResponse st h
                (if null_body_status st then None else Some (Stream payload))))).
    + eexists (text_response 404 "File not found"), _, [get_request u].
      split; [reflexivity|]. auto 6.
    + assert (S2 : (sent (after_fetch w u) ++ [get_request u])%list
                   = (sent w ++ [get_request u; get_request u])%list).
      { simpl. rewrite <- app_assoc. reflexivity. }
      destruct (fetchWithCors_outcome u request (after_fetch w u))
        as [(st2 & h2 & p2 & R & E)|[E|E]]; rewrite E.
      * exists (relayed st2 h2 p2), (after_fetch (after_fetch w u) u),
          [get_request u; get_request u].
        split; [reflexivity|]. split; [eauto 8|]. split; [exact S2 | auto].
      * exists (text_response 500 "Internal Server Error"),
          (after_fetch (after_fetch w u) u), [get_request u; get_request u].
        split; [reflexivity|]. split; [auto|]. split; [exact S2 | auto].
      * exists (text_response 500 "Internal Server Error"),
          (after_fetch (after_fetch w u) u), [get_request u; get_request u].
        split; [reflexivity|]. split; [auto|]. split; [exact S2 | auto].
Qed.

End Outcomes.

Section Routes.

Variable network : Network.

Lemma github_url_github (x : string) :
  github_url ("https://github.com/" ++ x) = true.
Proof.
  unfold github_url. rewrite (prefix_append "https://github.com/").
  reflexivity.
Qed.

Lemma github_url_raw (x : string) :
  github_url ("https://raw.githubusercontent.com/" ++ x) = true.
Proof.
  unfold github_url.
  rewrite (prefix_append "https://raw.githubusercontent.com/").
  apply orb_true_r.
Qed.

(** The three ways of [handleGitHubRequest]: the usage guide, the release
    branch, or one [fetchWithCors] of a URL on GitHub. *)
Lemma handleGitHubRequest_routes (path : string) (request : Request) :
  handleGitHubRequest network path request
  = complete (Normal usage_response)
  \/ (exists user repo version filePath,
        exec release_re path <> None
        /\ handleGitHubRequest network path request
           = probe_then_relay network user repo version filePath request)
  \/ (exists u,
        exec release_re path = None /\ github_url u = true
        /\ handleGitHubRequest network path request
           = fetchWithCors network u request).
Proof.
  destruct (exec release_re path) as [m|] eqn:Hr.
  { right. left. exists (nth_error m 1), (nth_error m 2), (nth_error m 3),
      (nth_error m 4).
    split; [discriminate | apply (handle_release network _ _ _ Hr)]. }
  destruct (exec version_re path) as [m|] eqn:Hv.
  { right. right. eexists. split; [reflexivity|].
    split; [|apply (handle_version network _ _ _ Hr Hv)].
    apply github_url_github. }
  destruct (exec blob_re path) as [m|] eqn:Hb.
  { right. right. eexists. split; [reflexivity|].
    split; [|apply (handle_blob network _ _ _ Hr Hv Hb)].
    apply github_url_raw. }
  destruct (exec raw_re path) as [m|] eqn:Hw.
  { right. right. eexists. split; [reflexivity|].
    split; [|apply (handle_raw network _ _ _ Hr Hv Hb Hw)].
    apply github_url_raw. }
  left. apply (handle_none network _ _ Hr Hv Hb Hw).
Qed.

End Routes.

(** Every request ends in one of five responses or, outside the release
    branch, in the exception of its one fetch: the 404 of the gates, the
    usage guide, the 404 of a failed probe, the 500 of the release branch,
    or the relay of a reply whose status is in 200..599.  An exception is a
    network failure or the RangeError of a reply whose status no response
    can be constructed with, and occurs only for a path that is no release
    download. *)
Theorem every_outcome_of_a_request (network : Network) (request : Request)
    (w : World) :
  match fst (handleRequest network request w) with
  | Normal r =>
      r = text_response 404 "404 Not Found"
      \/ r = usage_response
      \/ r = text_response 404 "File not found"
      \/ r = text_response 500 "Internal Server Error"
      \/ exists st h payload, (200 <= st <= 599)%Z /\ r = relayed st h payload
  | Throw e =>
      (e = NetworkFailure \/ e = RangeError)
      /\ exec release_re
           (JsString.replace (pathname (url request)) PREFIX_ACCESS "")
         = None
  end.
Proof.
  unfold handleRequest.
  destruct (JsString.startsWith (pathname (url request)) PREFIX_ACCESS);
    cbn [negb]; [|left; reflexivity].
  set (path := JsString.replace (pathname (url request)) PREFIX_ACCESS "").
  destruct (JsString.startsWith path PREFIX_GH); [|left; reflexivity].
  destruct (handleGitHubRequest_routes network path request)
    as [E|[(us & re & ve & fi & _ & E)|(u & Hrel & _ & E)]]; rewrite E.
  - right. left. reflexivity.
  - destruct (probe_then_relay_outcome network us re ve fi request w)
      as (r & w' & new & E' & [->|[->|R]] & _); rewrite E'; cbn [fst]; auto 6.
  - destruct (fetchWithCors_outcome network u request w)
      as [(st & h & p & R & E')|[E'|E']]; rewrite E'; cbn [fst]; eauto 10.
Qed.

(** A request makes the worker send no fetch, one, or the same one twice,
    each a GET without headers or body of a URL that starts with
    [https://github.com/] or [https://raw.githubusercontent.com/]. *)
Theorem fetches_go_to_github_only (network : Network) (request : Request)
    (w : World) :
  exists new,
    sent (snd (handleRequest network request w)) = (sent w ++ new)%list
    /\ (new = []
        \/ exists u,
             github_url u = true
             /\ (new = [get_request u]
                 \/ new = [get_request u; get_request u])).
Proof.
  assert (Zero : exists new,
    sent w = (sent w ++ new)%list
    /\ (new = []
        \/ exists u,
             github_url u = true
             /\ (new = [get_request u]
                 \/ new = [get_request u; get_request u]))).
  { exists []. split; [rewrite app_nil_r; reflexivity | auto]. }
  unfold handleRequest.
  destruct (JsString.startsWith (pathname (url request)) PREFIX_ACCESS);
    cbn [negb]; [|exact Zero].
  set (path := JsString.replace (pathname (url request)) PREFIX_ACCESS "").
  destruct (JsString.startsWith path PREFIX_GH); [|exact Zero].
  destruct (handleGitHubRequest_routes network path request)
    as [E|[(us & re & ve & fi & _ & E)|(u & _ & Hu & E)]]; rewrite E.
  - exact Zero.
  - destruct (probe_then_relay_outcome network us re ve fi request w)
      as (r & w' & new & E' & _ & S & Hnew). rewrite E'. cbn [snd].
    exists new. split; [exact S|]. right.
    eexists. split; [apply github_url_github | exact Hnew].
  - exists [get_request u]. split; [apply fetchWithCors_sent|].
    right. exists u. auto.
Qed.

(** ** Paths of no shape *)

Section Rejections.

Lemma count_slash_append (a b : string) :
  count_slash (a ++ b) = count_slash a + count_slash b.
Proof.
  induction a as [|c a IH]; simpl; [reflexivity|]. rewrite IH. lia.
Qed.

(** A path that an expression matches has the slashes of its shape. *)
Lemma matched_path_has_four_slashes (path : string) :
  exec release_re path <> None \/ exec version_re path <> None
  \/ exec blob_re path <> None \/ exec raw_re path <> None ->
  4 <= count_slash path.
Proof.
  assert (Slash : forall l m,
    exec (Bol :: slash_body l) path = Some m -> 4 <= count_slash path).
  { intros l m H.
    apply slash_inv in H as (o & r & t & f & -> & _).
    unfold slash_path. rewrite !count_slash_append. simpl. lia. }
  intros [H|[H|[H|H]]].
  - destruct (exec release_re path) as [m|] eqn:E; [|congruence].
    exact (Slash "releases/download/" m E).
  - destruct (exec version_re path) as [m|] eqn:E; [|congruence].
    apply version_inv in E as (o & r & t & f & -> & _).
    unfold version_path. rewrite !count_slash_append. simpl. lia.
  - destruct (exec blob_re path) as [m|] eqn:E; [|congruence].
    exact (Slash "blob/" m E).
  - destruct (exec raw_re path) as [m|] eqn:E; [|congruence].
    exact (Slash "raw/" m E).
Qed.

(** Without a slash in [x], no slash expression matches
    [/gh/<owner>/<repo>/<x>]. *)
Lemma slash_needs_more (l o r x : string) :
  is_segment o = true -> is_segment r = true ->
  JsString.all not_slash x = true ->
  exec (Bol :: slash_body l) ("/gh/" ++ o ++ "/" ++ r ++ "/" ++ x) = None.
Proof.
  intros Ho Hr Hx.
  destruct (exec (Bol :: slash_body l) ("/gh/" ++ o ++ "/" ++ r ++ "/" ++ x))
    as [m|] eqn:E; [exfalso | reflexivity].
  apply slash_inv in E as (o' & r' & t & f & E & Ho' & Hr' & _).
  unfold slash_path in E. simpl in E. inversion E as [E1]. clear E.
  apply segment_split_unique in E1 as [<- E1]; try apply is_segment_all; auto.
  apply segment_split_unique in E1 as [<- E1]; try apply is_segment_all; auto.
  subst x. rewrite !all_append in Hx. simpl in Hx.
  rewrite andb_false_r, andb_false_r in Hx. discriminate.
Qed.

End Rejections.

(** A path with fewer than four slashes has no shape: it is answered with
    the usage guide, and nothing is fetched. *)
Theorem short_paths_get_usage_guide (network : Network) (request : Request)
    (w : World) (path : string) :
  count_slash path < 4 ->
  handleGitHubRequest network path request w = (Normal usage_response, w).
Proof.
  intros H.
  assert (N : forall re,
    (exec re path <> None -> 4 <= count_slash path) -> exec re path = None).
  { intros re Hre. destruct (exec re path); [|reflexivity].
    assert (4 <= count_slash path) by (apply Hre; discriminate). lia. }
  rewrite (handle_none network path request).
  - reflexivity.
  - apply N. intros E. apply matched_path_has_four_slashes. auto.
  - apply N. intros E. apply matched_path_has_four_slashes. auto.
  - apply N. intros E. apply matched_path_has_four_slashes. auto.
  - apply N. intros E. apply matched_path_has_four_slashes. auto.
Qed.

Lemma short_paths_example :
  handleGitHubRequest network_up "/gh/nginx/nginx" (request_for "/") world0
  = (Normal usage_response, world0).
Proof.
  apply (short_paths_get_usage_guide network_up (request_for "/") world0
           "/gh/nginx/nginx").
  vm_compute. reflexivity.
Defined.

(** A path [/gh/<owner>/<repo>/<name>] without a version, the repository
    without an [@] between its first and last character and the name
    without a slash, has no shape and is answered with the usage guide:
    the version cannot be left out. *)
Theorem path_without_version_is_rejected (network : Network)
    (request : Request) (w : World) (owner repo name : string) :
  is_segment owner = true -> is_segment repo = true ->
  inner_at repo = false -> JsString.all not_slash name = true ->
  handleGitHubRequest network ("/gh/" ++ owner ++ "/" ++ repo ++ "/" ++ name)
    request w
  = (Normal usage_response, w).
Proof.
  intros Ho Hr Hat Hn.
  rewrite (handle_none network _ request).
  - reflexivity.
  - exact (slash_needs_more "releases/download/" _ _ _ Ho Hr Hn).
  - exact (version_no_match _ _ _ Ho Hr Hat).
  - exact (slash_needs_more "blob/" _ _ _ Ho Hr Hn).
  - exact (slash_needs_more "raw/" _ _ _ Ho Hr Hn).
Qed.

Lemma path_without_version_example :
  handleGitHubRequest network_up
    ("/gh/" ++ "nginx" ++ "/" ++ "nginx" ++ "/" ++ "CHANGELOG")
    (request_for "/3lwqk/gh/nginx/nginx/CHANGELOG") world0
  = (Normal usage_response, world0).
Proof.
  apply (path_without_version_is_rejected network_up
           (request_for "/3lwqk/gh/nginx/nginx/CHANGELOG") world0
           "nginx" "nginx" "CHANGELOG"); reflexivity.
Defined.

(** ** From the request to the path *)

(** A request for the access prefix followed by a path that starts with
    [/gh/] is handled as [handleGitHubRequest] handles that path: only the
    leading access prefix is removed, whatever the path holds further on. *)
Theorem access_prefix_is_stripped_once (network : Network)
    (request : Request) (path : string) :
  pathname (url request) = PREFIX_ACCESS ++ path ->
  JsString.startsWith path PREFIX_GH = true ->
  handleRequest network request = handleGitHubRequest network path request.
Proof.
  intros Hp Hgh. unfold handleRequest. rewrite Hp.
  unfold JsString.startsWith at 1. rewrite prefix_append. cbn [negb].
  rewrite (replace_prefix _ _ (prefix_append PREFIX_ACCESS path)).
  rewrite slice_append, Hgh. reflexivity.
Qed.

Lemma access_prefix_example :
  handleRequest network_up (request_for "/3lwqk/gh/o/r/raw/main/3lwqk/f")
  = handleGitHubRequest network_up "/gh/o/r/raw/main/3lwqk/f"
      (request_for "/3lwqk/gh/o/r/raw/main/3lwqk/f").
Proof.
  apply (access_prefix_is_stripped_once network_up
           (request_for "/3lwqk/gh/o/r/raw/main/3lwqk/f")
           "/gh/o/r/raw/main/3lwqk/f"); reflexivity.
Defined.

(** ** Matches and shapes *)

Lemma slash_matches_iff (l path o r t f : string) :
  exec (Bol :: slash_body l) path = Some [path; o; r; t; f]
  <-> path = slash_path l o r t f /\ is_segment o = true
      /\ is_segment r = true /\ is_segment t = true /\ single_line f = true.
Proof.
  split.
  - intros H. apply slash_inv in H
      as (o' & r' & t' & f' & E & Ho & Hr & Ht & Hf & M).
    inversion M; subst o' r' t' f'. auto.
  - intros (-> & Ho & Hr & Ht & Hf). apply slash_matches; assumption.
Qed.

(** The release-download, blob and raw expressions parse exactly the paths
    of their shapes: the captures [owner], [repo], [ref] and [file] come
    from a path if and only if the path is built from them, the first
    three non-empty and without a slash, the file without a line
    terminator. *)
Theorem slash_shapes_parse_their_paths (path o r t f : string) :
  (exec release_re path = Some [path; o; r; t; f]
   <-> path = release_path o r t f /\ is_segment o = true
       /\ is_segment r = true /\ is_segment t = true
       /\ single_line f = true)
  /\ (exec blob_re path = Some [path; o; r; t; f]
      <-> path = blob_path o r t f /\ is_segment o = true
          /\ is_segment r = true /\ is_segment t = true
          /\ single_line f = true)
  /\ (exec raw_re path = Some [path; o; r; t; f]
      <-> path = raw_path o r t f /\ is_segment o = true
          /\ is_segment r = true /\ is_segment t = true
          /\ single_line f = true).
Proof.
  split; [|split].
  - exact (slash_matches_iff "releases/download/" path o r t f).
  - exact (slash_matches_iff "blob/" path o r t f).
  - exact (slash_matches_iff "raw/" path o r t f).
Qed.

(** The short-version expression parses exactly the paths of its shape
    whose tag has no [@] before its last character: of the ways to split
    the second segment at an [@], the captures are those of the last one
    that leaves a tag. *)
Theorem short_version_parses_at_last_at (path o r t f : string) :
  exec version_re path = Some [path; o; r; t; f]
  <-> path = version_path o r t f /\ is_segment o = true
      /\ is_segment r = true /\ is_segment t = true
      /\ at_before_last t = false /\ single_line f = true.
Proof.
  split.
  - intros H. pose proof H as H0. apply version_inv in H0
      as (o' & r' & t' & f' & E & Ho & Hr & Ht & Hf & M).
    inversion M; subst o' r' t' f'. clear M.
    repeat split; auto.
    destruct (at_before_last t) eqn:A; [exfalso | reflexivity].
    destruct (at_before_last_last t A) as (a & t' & -> & Hne & Hlast).
    pose proof (is_segment_all _ Ht) as Hall.
    rewrite all_append in Hall. apply andb_true_iff in Hall as [Ha Ht'].
    simpl in Ht'.
    assert (SR : is_segment (r ++ String "@" a) = true).
    { apply is_segment_spec. split.
      - destruct r; [discriminate Hr | discriminate].
      - rewrite all_append, (is_segment_all _ Hr). simpl. exact Ha. }
    assert (ST : is_segment t' = true).
    { apply is_segment_spec. split; assumption. }
    pose proof (version_matches o (r ++ String "@" a) t' f Ho SR ST Hlast Hf)
      as M.
    assert (P : version_path o (r ++ String "@" a) t' f
                = version_path o r (a ++ String "@" t') f).
    { unfold version_path. rewrite !append_assoc. reflexivity. }
    rewrite P, <- E, H in M. inversion M as [R].
    apply (f_equal String.length) in R. rewrite length_append in R.
    simpl in R. lia.
  - intros (-> & Ho & Hr & Ht & Hat & Hf). apply version_matches; assumption.
Qed.

(** A release download keeps its path: whatever the captures, the probe
    (and the relay, when there is one) is a fetch of [https://github.com/]
    followed by the path after its [/gh/]. *)
Theorem release_download_keeps_the_path (network : Network)
    (request : Request) (w : World) (path : string) :
  exec release_re path <> None ->
  let u := "https://github.com/" ++ JsString.slice 4 path in
  exists new,
    sent (snd (handleGitHubRequest network path request w))
    = (sent w ++ new)%list
    /\ (new = [get_request u] \/ new = [get_request u; get_request u]).
Proof.
  intros H u. destruct (exec release_re path) as [m|] eqn:E; [|congruence].
  rewrite (handle_release network _ request _ E).
  apply (slash_inv "releases/download/") in E
    as (o & r & t & f & P & _ & _ & _ & _ & ->).
  cbn [nth_error].
  destruct (probe_then_relay_outcome network (Some o) (Some r) (Some t)
              (Some f) request w) as (resp & w' & new & E' & _ & S & Hnew).
  rewrite E'. cbn [snd]. exists new. split; [exact S|].
  subst u path. exact Hnew.
Qed.

Lemma release_download_path_example :
  exists new,
    sent (snd (handleGitHubRequest network_up
                 "/gh/o/r@t/releases/download/v1/a/b.tgz" (request_for "/")
                 world0))
    = (sent world0 ++ new)%list
    /\ (new = [get_request
                 ("https://github.com/"
                  ++ JsString.slice 4 "/gh/o/r@t/releases/download/v1/a/b.tgz")]
        \/ new = [get_request
                    ("https://github.com/"
                     ++ JsString.slice 4
                          "/gh/o/r@t/releases/download/v1/a/b.tgz");
                  get_request
                    ("https://github.com/"
                     ++ JsString.slice 4
                          "/gh/o/r@t/releases/download/v1/a/b.tgz")]).
Proof.
  apply (release_download_keeps_the_path network_up (request_for "/") world0
           "/gh/o/r@t/releases/download/v1/a/b.tgz").
  vm_compute. discriminate.
Defined.
